(** * Verification of the documentation cog (bot/cogs/doc)

    A shallow embedding of the Python sources

      - [bot/cogs/doc/parsing.py]  (extraction, truncation and assembly),
      - [bot/cogs/doc/cog.py]      (inventory merge and the per-page queue),
      - [bot/cogs/doc.py]          (the older single-module cog and [async_cache]),

    followed by the theorems that settle the properties of the specification.

    Conventions.  A Python [str] is a [string] and one character is one
    [ascii], a code point below 256.  A Python [int] is a [Z].
    [None] is the [None] of an [option].  A [dict] is a [gmap], a [set] a
    [gset], an [OrderedDict] an association list in insertion order.  An
    exception is a value of [exn] carried by the [result] type. *)

From Stdlib Require Import ZArith Ascii String List Bool Lia DecimalString.
From stdpp Require Import base option list gmap strings fin_maps.

Open Scope string_scope.

(* ===================================================================== *)
(** * Part I.  Definitions                                                *)
(* ===================================================================== *)

(** ** Exceptions *)

Inductive exn : Type :=
| AttributeError
| ValueError
| KeyError
| IndexError
| UnboundLocalError.

Inductive result (A : Type) : Type :=
| Ok (a : A)
| Raise (e : exn).
Arguments Ok {A} a.
Arguments Raise {A} e.

Definition rbind {A B : Type} (m : result A) (k : A -> result B) : result B :=
  match m with
  | Ok a => k a
  | Raise e => Raise e
  end.

Notation "x <-r m ; k" := (rbind m (fun x => k))
  (at level 100, m at next level, right associativity).

Definition result_to_option {A : Type} (m : result A) : option A :=
  match m with
  | Ok a => Some a
  | Raise _ => None
  end.

(** ** Python string primitives *)

Module Py.

Definition nl : string := String "010"%char "".

(** [str.isspace] on the code points below 256: TAB, LF, VT, FF, CR, FS,
    GS, RS, US, the blank, NEL and the no-break space. *)
Definition isspace (c : ascii) : bool :=
  let n := nat_of_ascii c in
  ((9 <=? n)%nat && (n <=? 13)%nat) || ((28 <=? n)%nat && (n <=? 32)%nat)
  || (n =? 133)%nat || (n =? 160)%nat.

(** [string.punctuation]. *)
Definition punctuation : string :=
  "!" ++ String "034"%char "" ++ "#$%&'()*+,-./:;<=>?@[\]^_`{|}~".

Fixpoint mem_char (c : ascii) (chars : string) : bool :=
  match chars with
  | EmptyString => false
  | String d rest => Ascii.eqb c d || mem_char c rest
  end.

(** [s[:n]] and [s[n:]] for a non-negative [n]. *)
Fixpoint take (n : nat) (s : string) : string :=
  match n, s with
  | S n', String c s' => String c (take n' s')
  | _, _ => EmptyString
  end.

Fixpoint drop (n : nat) (s : string) : string :=
  match n, s with
  | S n', String _ s' => drop n' s'
  | _, _ => s
  end.

(** [s[:i]] for any integer [i]: a negative bound counts from the end. *)
Definition slice_to (s : string) (i : Z) : string :=
  if (i <? 0)%Z
  then take (Z.to_nat (Z.of_nat (String.length s) + i)) s
  else take (Z.to_nat i) s.

(** [s.startswith(p)]. *)
Fixpoint startswith (s p : string) : bool :=
  match p, s with
  | EmptyString, _ => true
  | String a p', String b s' => Ascii.eqb a b && startswith s' p'
  | String _ _, EmptyString => false
  end.

(** [s.endswith(p)]. *)
Definition endswith (s p : string) : bool :=
  (String.length p <=? String.length s)%nat &&
  String.eqb (drop (String.length s - String.length p) s) p.

(** [sub in s]. *)
Fixpoint contains (sub s : string) : bool :=
  startswith s sub ||
  match s with
  | EmptyString => false
  | String _ s' => contains sub s'
  end.

(** The highest index [i >= start] with [s[i:i+len(sub)] == sub], where [s]
    is the text that begins at absolute index [pos]. *)
Fixpoint rfind_at (sub s : string) (pos start : nat) : option nat :=
  let here := if startswith s sub && (start <=? pos)%nat then Some pos else None in
  match s with
  | EmptyString => here
  | String _ s' =>
      match rfind_at sub s' (S pos) start with
      | Some i => Some i
      | None => here
      end
  end.

(** [s.rfind(sub, start)]; [-1] when there is no occurrence. *)
Definition rfind (s sub : string) (start : nat) : Z :=
  match rfind_at sub s 0 start with
  | Some i => Z.of_nat i
  | None => (-1)%Z
  end.

(** [s.count(sub)] for a non-empty [sub]: occurrences counted left to
    right without overlap; [skip] characters of a counted occurrence are
    still to be passed over. *)
Fixpoint count_from (sub s : string) (skip : nat) : nat :=
  match s with
  | EmptyString => 0
  | String _ s' =>
      match skip with
      | S k => count_from sub s' k
      | O =>
          if startswith s sub
          then S (count_from sub s' (String.length sub - 1))
          else count_from sub s' 0
      end
  end.

Definition count (s sub : string) : nat :=
  match sub with
  | EmptyString => S (String.length s)
  | _ => count_from sub s 0
  end.

(** [s.rstrip(chars)], the set of characters given as a predicate. *)
Fixpoint rstrip_by (p : ascii -> bool) (s : string) : string :=
  match s with
  | EmptyString => EmptyString
  | String c s' =>
      match rstrip_by p s' with
      | EmptyString => if p c then EmptyString else String c EmptyString
      | r => String c r
      end
  end.

Definition rstrip (s : string) : string := rstrip_by isspace s.
Definition rstrip_chars (s chars : string) : string :=
  rstrip_by (fun c => mem_char c chars) s.

(** [sep.join(parts)]. *)
Fixpoint join (sep : string) (parts : list string) : string :=
  match parts with
  | [] => ""
  | [p] => p
  | p :: rest => p ++ sep ++ join sep rest
  end.

(** [s.split(sep, maxsplit)] for a one-character separator; [cur] is the
    piece read so far.  [maxsplit = None] splits everywhere. *)
Fixpoint split_go (sep : ascii) (maxsplit : option nat) (s : string)
    (cur : string) : list string :=
  match s with
  | EmptyString => [cur]
  | String c s' =>
      match maxsplit with
      | Some O => [cur ++ s]
      | _ =>
          if Ascii.eqb c sep
          then cur :: split_go sep (Nat.pred <$> maxsplit) s' ""
          else split_go sep maxsplit s' (cur ++ String c "")
      end
  end.

Definition split (s : string) (sep : ascii) (maxsplit : option nat) : list string :=
  split_go sep maxsplit s "".

(** [s.partition(sep)] for a one-character separator, without the middle
    component: the text before the first [sep] and the text after it. *)
Fixpoint partition (s : string) (sep : ascii) : string * string :=
  match s with
  | EmptyString => ("", "")
  | String c s' =>
      if Ascii.eqb c sep then ("", s')
      else let '(a, b) := partition s' sep in (String c a, b)
  end.

(** [s * n]. *)
Fixpoint repeat (s : string) (n : nat) : string :=
  match n with
  | O => ""
  | S n' => s ++ repeat s n'
  end.

(** [l[i]] for a non-negative index. *)
Definition index {A : Type} (l : list A) (i : nat) : result A :=
  match nth_error l i with
  | Some a => Ok a
  | None => Raise IndexError
  end.

End Py.

(** ** Collaborators

    Library functions the sources call and whose code is not part of the
    repository: the HTML-to-markdown conversion ([markdownify], built on the
    [markdownify] package), [textwrap.shorten] and
    [discord.utils.escape_markdown]. *)

Class Collaborators : Type := {
  markdownify : string -> string -> string;
  shorten : string -> nat -> string;
  escape_markdown : string -> string;
}.

(** ** parsing.py: truncation and assembly *)

(** The [for ... else] of [_truncate_markdown]: the first cutoff string
    that occurs in [shortened] gives the cut, [max_length] when none does. *)
Fixpoint search_cutoff (shortened : string) (cutoff_strings : list string)
    (max_length : Z) : Z :=
  match cutoff_strings with
  | [] => max_length
  | cutoff_string :: rest =>
      let description_cutoff := Py.rfind shortened cutoff_string 0 in
      if (description_cutoff =? -1)%Z
      then search_cutoff shortened rest max_length
      else description_cutoff
  end.

(** [_truncate_markdown(markdown, max_length)], parsing.py lines 129-155. *)
Definition _truncate_markdown (markdown : string) (max_length : Z) : string :=
  if (Z.of_nat (String.length markdown) >? max_length)%Z then
    let shortened := Py.slice_to markdown max_length in
    let description_cutoff := Py.rfind shortened (Py.nl ++ Py.nl) 100 in
    let description_cutoff :=
      if (description_cutoff =? -1)%Z
      then search_cutoff shortened [". "; ", "; ","; " "] max_length
      else description_cutoff in
    let markdown := Py.slice_to markdown description_cutoff in
    let markdown :=
      if Nat.odd (Py.count markdown "```")
      then
        let codeblock_start := Py.rfind markdown "```py" 0 in
        Py.rstrip (Py.slice_to markdown codeblock_start)
      else markdown in
    Py.rstrip_chars markdown Py.punctuation ++ "..."
  else markdown.

(** [_WHITESPACE_AFTER_NEWLINES_RE.sub('', s)] for the pattern
    [(?<=\n\n)(\s+)]: every maximal run of whitespace that starts right
    after two newlines is removed.  [newlines] counts the newlines that
    end the text already read (two are enough), [inside] says that a run
    is being removed. *)
Fixpoint whitespace_after_newlines_sub (s : string) (newlines : nat)
    (inside : bool) : string :=
  match s with
  | EmptyString => EmptyString
  | String c s' =>
      let newlines' :=
        if Ascii.eqb c "010"%char then Nat.min 2 (S newlines) else 0 in
      if Py.isspace c && (inside || (2 <=? newlines)%nat)
      then whitespace_after_newlines_sub s' newlines' true
      else String c (whitespace_after_newlines_sub s' newlines' false)
  end.

Section Assembly.
Context `{Collaborators}.

(** [_parse_into_markdown(signatures, description, url)], parsing.py
    lines 158-173. *)
Definition _parse_into_markdown (signatures : option (list string))
    (description url : string) : string :=
  let description := _truncate_markdown (markdownify description url) 1000 in
  let description := whitespace_after_newlines_sub description 0 false in
  let formatted_markdown :=
    match signatures with
    | Some signatures =>
        Py.join ""
          (map (fun signature => "```py" ++ Py.nl ++ shorten signature 500 ++ "```")
               signatures)
    | None => ""
    end in
  formatted_markdown ++ Py.nl ++ description.

(** The assembly of [Doc.get_symbol_embed], doc.py lines 333-344, from the
    signatures and the description already truncated and cleaned (lines
    330-332). *)
Definition embed_description (signatures : option (list string))
    (description : string) : string :=
  match signatures with
  | None => description
  | Some [] => "This appears to be a generic page not tied to a specific symbol."
  | Some signatures =>
      Py.join ""
        (map (fun signature => "```py" ++ Py.nl ++ shorten signature 500 ++ "```")
             signatures)
      ++ Py.nl ++ description
  end.

(** The description as both assemblies receive it, and one signature in
    its code block. *)
Definition rendered_description (description url : string) : string :=
  whitespace_after_newlines_sub
    (_truncate_markdown (markdownify description url) 1000) 0 false.

Definition code_block (signature : string) : string :=
  "```py" ++ Py.nl ++ shorten signature 500 ++ "```".

End Assembly.

(** ** doc.py: [async_cache] *)

Section AsyncCache.
Context {V : Type}.

(** [async_cache.cache], an [OrderedDict]: the entries in insertion order.
    A stored value is the wrapped function's result, which may be [None]. *)
Definition ordered_dict : Type := list (string * option V).

(** The entry stored under [key], if there is one. *)
Fixpoint od_lookup (key : string) (d : ordered_dict) : option (option V) :=
  match d with
  | [] => None
  | (k, v) :: rest => if String.eqb k key then Some v else od_lookup key rest
  end.

(** [d.get(key)]: [None] for a missing key and for a stored [None]. *)
Definition od_get (key : string) (d : ordered_dict) : option V :=
  match od_lookup key d with
  | Some v => v
  | None => None
  end.

(** [d[key] = v]: an existing key keeps its position, a new one goes last. *)
Fixpoint od_set (key : string) (v : option V) (d : ordered_dict) : ordered_dict :=
  match d with
  | [] => [(key, v)]
  | (k, w) :: rest =>
      if String.eqb k key then (k, v) :: rest else (k, w) :: od_set key v rest
  end.

(** [d.popitem(last=False)]. *)
Definition od_popitem_first (d : ordered_dict) : result ordered_dict :=
  match d with
  | [] => Raise KeyError
  | _ :: rest => Ok rest
  end.

(** The cache together with the log of the calls made to the wrapped
    function. *)
Record cache_state : Type := {
  cache : ordered_dict;
  calls : list (list string);
}.

(** [key = ':'.join(args[arg_offset:])]. *)
Definition cache_key (arg_offset : nat) (args : list string) : string :=
  Py.join ":" (skipn arg_offset args).

(** The [wrapper] of [async_cache(max_size, arg_offset)(function)], doc.py
    lines 108-118, run without another call in between. *)
Definition wrapper (max_size : Z) (arg_offset : nat)
    (function : list string -> option V) (args : list string)
    (st : cache_state) : result (option V * cache_state) :=
  let key := cache_key arg_offset args in
  let value := od_get key (cache st) in
  match value with
  | None =>
      c <-r (if (Z.of_nat (length (cache st)) >? max_size)%Z
             then od_popitem_first (cache st)
             else Ok (cache st));
      let computed := function args in
      let c := od_set key computed c in
      Ok (od_get key c, {| cache := c; calls := calls st ++ [args] |})
  | Some _ => Ok (od_get key (cache st), st)
  end.

(** A sequence of calls, one after the other. *)
Fixpoint run_calls (max_size : Z) (arg_offset : nat)
    (function : list string -> option V) (requests : list (list string))
    (st : cache_state) : result cache_state :=
  match requests with
  | [] => Ok st
  | args :: rest =>
      r <-r wrapper max_size arg_offset function args st;
      run_calls max_size arg_offset function rest (snd r)
  end.

(** The calls of a log whose cache key is [key]. *)
Definition calls_for (arg_offset : nat) (key : string)
    (log : list (list string)) : list (list string) :=
  List.filter (fun args => String.eqb (cache_key arg_offset args) key) log.

End AsyncCache.

(** [async_cache.cache = OrderedDict()] leaves an empty cache. *)
Definition fresh_cache {V : Type} : @cache_state V := {| cache := []; calls := [] |}.

(** Distinct keys for the tests of the cache: ["k0"], ["k1"], ... *)
Definition test_key (n : nat) : string :=
  "k" ++ NilEmpty.string_of_uint (Nat.to_uint n).

Definition test_requests (n : nat) : list (list string) :=
  map (fun i => ["self"; test_key i]) (seq 0 n).

(** A wrapped function that finds something for every request. *)
Definition test_function (args : list string) : option string :=
  Some (Py.join "+" args).

(** A wrapped function that finds nothing. *)
Definition unknown_symbol (args : list string) : option string := None.

(** ** cog.py: the data model *)

(** [DocItem], a [NamedTuple]; [url] is its property. *)
Record DocItem : Type := {
  name : string;
  package : string;
  group : string;
  base_url : string;
  relative_url_path : string;
  symbol_id : string;
}.

#[global] Instance DocItem_eq_dec : EqDecision DocItem.
Proof. solve_decision. Defined.

Definition url (item : DocItem) : string :=
  Py.join "" [base_url item; relative_url_path item; "#"; symbol_id item].

(** [discord.Embed] as the cog uses it: the three constructor arguments and
    the footer text. *)
Record Embed : Type := {
  e_title : string;
  e_url : string;
  e_description : string;
  e_footer : option string;
}.

Definition NO_OVERRIDE_GROUPS : list string :=
  ["2to3fixer"; "token"; "label"; "pdbcommand"; "term"].

Definition NO_OVERRIDE_PACKAGES : list string := ["python"].

(** [TODO_PLACEHOLDER], the pending state of one page.  An [asyncio.Event]
    is known by the number it got when it was created.  The slot
    [fetch_lock] is never acquired and is left out. *)
Record TODO_PLACEHOLDER : Type := {
  queue : list DocItem;
  started : bool;
  item_events : list (DocItem * nat);
}.

(** [TODO_PLACEHOLDER()]. *)
Definition new_placeholder : TODO_PLACEHOLDER :=
  {| queue := []; started := false; item_events := [] |}.

(** [add_item]: [self.queue.append(item)]. *)
Definition add_item (item : DocItem) (q : TODO_PLACEHOLDER) : TODO_PLACEHOLDER :=
  {| queue := queue q ++ [item]; started := started q; item_events := item_events q |}.

(** [list.remove(x)]: the first occurrence goes, [ValueError] without one. *)
Fixpoint list_remove (x : DocItem) (l : list DocItem) : result (list DocItem) :=
  match l with
  | [] => Raise ValueError
  | y :: rest =>
      if decide (y = x) then Ok rest
      else rest' <-r list_remove x rest; Ok (y :: rest')
  end.

(** [put_to_front]: [self.queue.remove(item); self.queue.append(item)]. *)
Definition put_to_front (item : DocItem) (q : TODO_PLACEHOLDER) : result TODO_PLACEHOLDER :=
  rest <-r list_remove item (queue q);
  Ok {| queue := rest ++ [item]; started := started q; item_events := item_events q |}.

(** [self.item_events.get(item)]. *)
Fixpoint events_get (item : DocItem) (events : list (DocItem * nat)) : option nat :=
  match events with
  | [] => None
  | (i, ev) :: rest => if decide (i = item) then Some ev else events_get item rest
  end.

(** [self.item_events[item] = event]. *)
Fixpoint events_set (item : DocItem) (event : nat) (events : list (DocItem * nat))
    : list (DocItem * nat) :=
  match events with
  | [] => [(item, event)]
  | (i, ev) :: rest =>
      if decide (i = item) then (i, event) :: rest
      else (i, ev) :: events_set item event rest
  end.

(** The attributes of [DocCog] that hold the index: [urls] is a
    [defaultdict(TODO_PLACEHOLDER)], [objects] the results dict shared by
    every [TODO_PLACEHOLDER]. *)
Record DocCog : Type := {
  base_urls : gmap string string;
  doc_symbols : gmap string DocItem;
  renamed_symbols : gset string;
  urls : gmap string TODO_PLACEHOLDER;
  objects : gmap string Embed;
}.

(** [DocCog.__init__]. *)
Definition new_cog : DocCog :=
  {| base_urls := ∅; doc_symbols := ∅; renamed_symbols := ∅; urls := ∅; objects := ∅ |}.

(** [self.urls[key]] read through the [defaultdict]. *)
Definition urls_get (key : string) (cog : DocCog) : TODO_PLACEHOLDER :=
  default new_placeholder (urls cog !! key).

Definition set_urls (key : string) (q : TODO_PLACEHOLDER) (cog : DocCog) : DocCog :=
  {| base_urls := base_urls cog; doc_symbols := doc_symbols cog;
     renamed_symbols := renamed_symbols cog;
     urls := <[key := q]> (urls cog); objects := objects cog |}.

Definition set_object (key : string) (embed : Embed) (cog : DocCog) : DocCog :=
  {| base_urls := base_urls cog; doc_symbols := doc_symbols cog;
     renamed_symbols := renamed_symbols cog;
     urls := urls cog; objects := <[key := embed]> (objects cog) |}.

Definition set_symbol (key : string) (item : DocItem) (cog : DocCog) : DocCog :=
  {| base_urls := base_urls cog; doc_symbols := <[key := item]> (doc_symbols cog);
     renamed_symbols := renamed_symbols cog;
     urls := urls cog; objects := objects cog |}.

Definition add_renamed (symbol : string) (cog : DocCog) : DocCog :=
  {| base_urls := base_urls cog; doc_symbols := doc_symbols cog;
     renamed_symbols := {[symbol]} ∪ renamed_symbols cog;
     urls := urls cog; objects := objects cog |}.

Definition set_base_url (package_name url : string) (cog : DocCog) : DocCog :=
  {| base_urls := <[package_name := url]> (base_urls cog);
     doc_symbols := doc_symbols cog; renamed_symbols := renamed_symbols cog;
     urls := urls cog; objects := objects cog |}.

(** ** cog.py: [update_single] *)

(** One inventory as [intersphinx.fetch_inventory] returns it: per group
    (["domain:group"]) the symbols with their
    [(package, version, relative_url, display)]. *)
Definition inventory : Type :=
  list (string * list (string * (string * string * string * string))).

(** The body of the inner loop of [update_single], cog.py lines 207-238, for
    one [symbol] of [group].  Both exceptions it can raise come before its
    first write. *)
Definition update_symbol (api_package_name base_url_ group_ symbol relative_doc_url : string)
    (cog : DocCog) : result DocCog :=
  if Py.contains "/" symbol then Ok cog
  else
    group_name <-r Py.index (Py.split group_ ":" None) 1;
    renamed <-r
      match doc_symbols cog !! symbol with
      | Some existing =>
          symbol_base_url <-r Py.index (Py.split (url existing) "/" (Some 3)) 2;
          if bool_decide (group_name ∈ NO_OVERRIDE_GROUPS)
             || existsb (fun package_ => Py.contains package_ symbol_base_url)
                        NO_OVERRIDE_PACKAGES
          then
            let symbol := group_name ++ "." ++ symbol in
            Ok (symbol, add_renamed symbol cog)
          else if bool_decide (group existing ∈ NO_OVERRIDE_GROUPS)
          then
            let overridden_symbol := group existing ++ "." ++ symbol in
            let overridden_symbol :=
              if bool_decide (overridden_symbol ∈ renamed_symbols cog)
              then api_package_name ++ "." ++ overridden_symbol
              else overridden_symbol in
            Ok (symbol, add_renamed overridden_symbol
                          (set_symbol overridden_symbol existing cog))
          else if bool_decide (symbol ∈ renamed_symbols cog)
          then
            let symbol := api_package_name ++ "." ++ symbol in
            Ok (symbol, add_renamed symbol cog)
          else Ok (symbol, cog)
      | None => Ok (symbol, cog)
      end;
    let '(symbol, cog) := renamed in
    let '(relative_url_path_, symbol_id_) := Py.partition relative_doc_url "#" in
    let item :=
      {| name := symbol; package := api_package_name; group := group_name;
         base_url := base_url_; relative_url_path := relative_url_path_;
         symbol_id := symbol_id_ |} in
    let cog := set_symbol symbol item cog in
    let key := base_url_ ++ relative_url_path_ in
    Ok (set_urls key (add_item item (urls_get key cog)) cog).

(** The key of the page of an item: [base_url + relative_url_path]. *)
Definition page_key (item : DocItem) : string :=
  base_url item ++ relative_url_path item.

(** The entry that [update_symbol] builds for [symbol], and its last two
    statements: the entry goes into the table and into the queue of its
    page. *)
Definition new_item (symbol api_package_name group_name base_url_ relative_doc_url : string)
    : DocItem :=
  {| name := symbol; package := api_package_name; group := group_name;
     base_url := base_url_;
     relative_url_path := fst (Py.partition relative_doc_url "#");
     symbol_id := snd (Py.partition relative_doc_url "#") |}.

Definition store_item (item : DocItem) (cog : DocCog) : DocCog :=
  let cog := set_symbol (name item) item cog in
  set_urls (page_key item) (add_item item (urls_get (page_key item) cog)) cog.

(** How a run of statements over the cog ends: normally, or with an
    exception that leaves the writes made so far. *)
Inductive outcome : Type :=
| Done (cog : DocCog)
| Failed (e : exn) (cog : DocCog).

Definition final_cog (o : outcome) : DocCog :=
  match o with
  | Done cog => cog
  | Failed _ cog => cog
  end.

(** A [for] loop whose body raises before it writes. *)
Fixpoint for_each {A : Type} (body : A -> DocCog -> result DocCog)
    (items : list A) (cog : DocCog) : outcome :=
  match items with
  | [] => Done cog
  | x :: rest =>
      match body x cog with
      | Ok cog' => for_each body rest cog'
      | Raise e => Failed e cog
      end
  end.

(** The two nested loops of [update_single] as one loop over the
    (group, symbol, relative_url) entries in iteration order. *)
Definition entries (package_ : inventory) : list (string * string * string) :=
  flat_map (fun '(group_, value) =>
              map (fun '(symbol, (_, _, relative_doc_url, _)) =>
                     (group_, symbol, relative_doc_url)) value)
           package_.

(** [update_single(api_package_name, base_url, inventory_url)], cog.py lines
    186-240; [fetched] is what [_fetch_inventory(inventory_url)] returned. *)
Definition update_single (api_package_name base_url_ : string)
    (fetched : option inventory) (cog : DocCog) : outcome :=
  let cog := set_base_url api_package_name base_url_ cog in
  match fetched with
  | None | Some [] => Done cog
  | Some package_ =>
      for_each (fun '(group_, symbol, relative_doc_url) =>
                  update_symbol api_package_name base_url_ group_ symbol relative_doc_url)
               (entries package_) cog
  end.

(** ** doc.py: [update_single]

    The older cog keeps the absolute URL in its [DocItem] and tests the
    renamed set after the two renaming branches, not as a third branch. *)

Module DocPy.

Record DocItem : Type := {
  package : string;
  url : string;
  group : string;
}.

(** The attributes of [Doc] that hold the index. *)
Record Doc : Type := {
  base_urls : gmap string string;
  doc_symbols : gmap string DocItem;
  renamed_symbols : gset string;
}.

(** [Doc.__init__]. *)
Definition new_doc : Doc :=
  {| base_urls := ∅; doc_symbols := ∅; renamed_symbols := ∅ |}.

Definition set_symbol (key : string) (item : DocItem) (doc : Doc) : Doc :=
  {| base_urls := base_urls doc; doc_symbols := <[key := item]> (doc_symbols doc);
     renamed_symbols := renamed_symbols doc |}.

Definition add_renamed (symbol : string) (doc : Doc) : Doc :=
  {| base_urls := base_urls doc; doc_symbols := doc_symbols doc;
     renamed_symbols := {[symbol]} ∪ renamed_symbols doc |}.

(** The body of the inner loop of [Doc.update_single], doc.py lines 226-255,
    for one [symbol] of [group]. *)
Definition update_symbol (api_package_name base_url_ group_ symbol relative_doc_url : string)
    (doc : Doc) : result Doc :=
  if Py.contains "/" symbol then Ok doc
  else
    let absolute_doc_url := base_url_ ++ relative_doc_url in
    group_name <-r Py.index (Py.split group_ ":" None) 1;
    renamed <-r
      match doc_symbols doc !! symbol with
      | Some existing =>
          symbol_base_url <-r Py.index (Py.split (url existing) "/" (Some 3)) 2;
          let '(symbol', doc') :=
            if bool_decide (group_name ∈ NO_OVERRIDE_GROUPS)
               || existsb (fun package_ => Py.contains package_ symbol_base_url)
                          NO_OVERRIDE_PACKAGES
            then (group_name ++ "." ++ symbol, doc)
            else if bool_decide (group existing ∈ NO_OVERRIDE_GROUPS)
            then
              let overridden_symbol := group existing ++ "." ++ symbol in
              let overridden_symbol :=
                if bool_decide (overridden_symbol ∈ renamed_symbols doc)
                then api_package_name ++ "." ++ overridden_symbol
                else overridden_symbol in
              (symbol, add_renamed overridden_symbol
                         (set_symbol overridden_symbol existing doc))
            else (symbol, doc) in
          if bool_decide (symbol' ∈ renamed_symbols doc')
          then
            let symbol' := api_package_name ++ "." ++ symbol' in
            Ok (symbol', add_renamed symbol' doc')
          else Ok (symbol', doc')
      | None => Ok (symbol, doc)
      end;
    let '(symbol, doc) := renamed in
    Ok (set_symbol symbol
          {| package := api_package_name; url := absolute_doc_url; group := group_name |}
          doc).

End DocPy.

(** ** The parsed page

    What parsing.py uses of BeautifulSoup, as an interface: an element of a
    parsed document and the library's navigation from it. *)

(** The three searches [_find_elements_until_tag] is specialised with. *)
Inductive find_many_method : Type :=
| find_all_children          (* partial(BeautifulSoup.find_all, recursive=False) *)
| find_next_siblings         (* BeautifulSoup.find_next_siblings *)
| find_previous_siblings.    (* BeautifulSoup.find_previous_siblings *)

Class BeautifulSoup : Type := {
  PageElement : Type;
  (** [isinstance(element, Tag)] *)
  is_tag : PageElement -> bool;
  (** [tag.name] *)
  tag_name : PageElement -> string;
  (** [tag.get("class", ())] *)
  tag_class : PageElement -> list string;
  (** [element.text] *)
  element_text : PageElement -> string;
  (** [str(element)] *)
  element_str : PageElement -> string;
  (** [element.parent] *)
  element_parent : PageElement -> option PageElement;
  (** [soup.find(id=symbol_id)] *)
  find_id : PageElement -> string -> option PageElement;
  (** [element.find_next(name)] and
      [element.find_next(name, attrs={"class": c})] *)
  find_next : PageElement -> string -> option string -> option PageElement;
  (** [func(start_element, name=Strainer(include_strings=b), limit=n)]: the
      elements the search yields, strings among them when [b] is set, at
      most [n] of them when a limit is given. *)
  find_many : find_many_method -> PageElement -> bool -> option nat -> list PageElement;
}.

(** ** parsing.py: extraction *)

Definition _SEARCH_END_TAG_ATTRS : list string :=
  ["data"; "function"; "class"; "exception"; "seealso"; "section"; "rubric";
   "sphinxsidebar"].

Definition _NO_SIGNATURE_GROUPS : list string :=
  ["attribute"; "envvar"; "setting"; "tempaltefilter"; "templatetag"; "term"].

(** The pilcrow sign, U+00B6. *)
Definition pilcrow : ascii := "182"%char.

(** [_UNWANTED_SIGNATURE_SYMBOLS_RE.sub("", s)] for the pattern
    [\[source]|\\\\|¶]: every occurrence of ["[source]"], of two
    backslashes and of the pilcrow is removed, left to right; [skip]
    characters of an occurrence are still to be dropped. *)
Fixpoint unwanted_signature_symbols_sub (s : string) (skip : nat) : string :=
  match s with
  | EmptyString => EmptyString
  | String c s' =>
      match skip with
      | S k => unwanted_signature_symbols_sub s' k
      | O =>
          if Py.startswith s "[source]" then unwanted_signature_symbols_sub s' 7
          else if Py.startswith s "\\" then unwanted_signature_symbols_sub s' 1
          else if Ascii.eqb c pilcrow then unwanted_signature_symbols_sub s' 0
          else String c (unwanted_signature_symbols_sub s' 0)
      end
  end.

(** [s.replace(c, '')] for a one-character [c]. *)
Fixpoint remove_char (c : ascii) (s : string) : string :=
  match s with
  | EmptyString => EmptyString
  | String d s' => if Ascii.eqb d c then remove_char c s' else String d (remove_char c s')
  end.

(** [l[-n:]] for a positive [n]. *)
Definition last_n {A : Type} (n : nat) (l : list A) : list A :=
  skipn (length l - n) l.

Section Parsing.
Context `{BeautifulSoup} `{Collaborators}.

(** The filter of [_find_elements_until_tag]: a tuple of tag names or a
    callable on tags. *)
Definition tag_filter_t : Type := (list string + (PageElement -> bool))%type.

(** The loop of [_find_elements_until_tag]: the elements before the first
    tag that the filter matches. *)
Fixpoint elements_until (tag_filter : tag_filter_t) (found : list PageElement)
    : list PageElement :=
  match found with
  | [] => []
  | element :: rest =>
      let stop :=
        is_tag element &&
        match tag_filter with
        | inl names => bool_decide (tag_name element ∈ names)
        | inr matches => matches element
        end in
      if stop then [] else element :: elements_until tag_filter rest
  end.

(** [_find_elements_until_tag(start_element, tag_filter, func=...,
    include_strings=..., limit=...)], parsing.py lines 44-75.  The search is
    a method of [start_element], so [None] raises [AttributeError]. *)
Definition _find_elements_until_tag (func : find_many_method)
    (start_element : option PageElement) (tag_filter : tag_filter_t)
    (include_strings : bool) (limit : option nat) : result (list PageElement) :=
  match start_element with
  | None => Raise AttributeError
  | Some start =>
      Ok (elements_until tag_filter (find_many func start include_strings limit))
  end.

Definition _find_next_children_until_tag := _find_elements_until_tag find_all_children.
Definition _find_next_siblings_until_tag := _find_elements_until_tag find_next_siblings.
Definition _find_previous_siblings_until_tag :=
  _find_elements_until_tag find_previous_siblings.

(** [_match_end_tag(tag)], parsing.py lines 186-192. *)
Definition _match_end_tag (tag : PageElement) : bool :=
  existsb (fun attr => bool_decide (attr ∈ tag_class tag)) _SEARCH_END_TAG_ATTRS
  || String.eqb (tag_name tag) "table".

(** [_get_general_description(start_element)], parsing.py lines 83-96. *)
Definition _get_general_description (start_element : option PageElement)
    : result string :=
  match start_element with
  | None => Raise AttributeError
  | Some element =>
      let header := find_next element "a" (Some "headerlink") in
      let start_tag :=
        match header with
        | Some header => element_parent header
        | None => start_element
        end in
      result_tags <-r _find_next_siblings_until_tag start_tag (inr _match_end_tag) true None;
      Ok (Py.join "" (map element_str result_tags))
  end.

(** [_get_dd_description(symbol)], parsing.py lines 99-105. *)
Definition _get_dd_description (symbol : PageElement) : result string :=
  let description_tag := find_next symbol "dd" None in
  description_contents <-r
    _find_next_children_until_tag description_tag (inl ["dt"; "dl"]) true None;
  Ok (Py.join "" (map element_str description_contents)).

(** [_get_signatures(start_signature)], parsing.py lines 108-126. *)
Definition _get_signatures (start_signature : PageElement) : result (list string) :=
  above <-r _find_previous_siblings_until_tag (Some start_signature) (inl ["dd"]) false (Some 2);
  below <-r _find_next_siblings_until_tag (Some start_signature) (inl ["dd"]) false (Some 2);
  Ok (List.filter (fun signature => negb (String.eqb signature ""))
        (map (fun element => unwanted_signature_symbols_sub (element_text element) 0)
             (last_n 3 (rev above ++ [start_signature] ++ below)))).

(** [get_symbol_markdown(soup, symbol_data)], parsing.py lines 195-229. *)
Definition get_symbol_markdown (soup : PageElement) (symbol_data : DocItem)
    : result string :=
  let symbol_heading := find_id soup (symbol_id symbol_data) in
  found <-r
    (if bool_decide (group symbol_data ∈ ["module"; "doc"; "label"])
     then
       description <-r _get_general_description symbol_heading;
       Ok (None, description)
     else
       match symbol_heading with
       | None => Raise AttributeError
       | Some heading =>
           if negb (String.eqb (tag_name heading) "dt")
           then
             description <-r _get_general_description symbol_heading;
             Ok (None, description)
           else if bool_decide (group symbol_data ∈ _NO_SIGNATURE_GROUPS)
           then
             description <-r _get_dd_description heading;
             Ok (None, description)
           else
             description <-r _get_dd_description heading;
             signature <-r _get_signatures heading;
             Ok (Some signature, description)
       end);
  let '(signature, description) := found in
  Ok (_parse_into_markdown signature (remove_char pilcrow description) (url symbol_data)).

End Parsing.

(** ** A document tree

    An instance of the interface for concrete pages: a document is a tree
    of tags and strings, an element a position in it. *)

#[warnings="-register-all"]
Inductive node : Type :=
| Tag (tag : string) (id : option string) (class : list string) (children : list node)
| NavigableString (text : string).

(** An element: the document and the child indices that lead to it. *)
Record element : Type := {
  document : node;
  path : list nat;
}.

Definition node_children (n : node) : list node :=
  match n with
  | Tag _ _ _ children => children
  | NavigableString _ => []
  end.

Fixpoint node_at (n : node) (p : list nat) : option node :=
  match p with
  | [] => Some n
  | i :: p' =>
      match nth_error (node_children n) i with
      | Some child => node_at child p'
      | None => None
      end
  end.

Definition element_node (e : element) : option node := node_at (document e) (path e).

(** The positions below a node in document order, the node itself first. *)
Fixpoint preorder (n : node) : list (list nat) :=
  [] ::
  match n with
  | Tag _ _ _ children =>
      (fix below (cs : list node) (i : nat) : list (list nat) :=
         match cs with
         | [] => []
         | c :: cs' => (map (cons i) (preorder c) ++ below cs' (S i))%list
         end) children 0
  | NavigableString _ => []
  end.

Fixpoint node_text (n : node) : string :=
  match n with
  | Tag _ _ _ children =>
      (fix texts (cs : list node) : string :=
         match cs with
         | [] => ""
         | c :: cs' => node_text c ++ texts cs'
         end) children
  | NavigableString text => text
  end.

(** A plain serialisation: the tag with its id and classes around its
    content. *)
Fixpoint node_str (n : node) : string :=
  match n with
  | Tag tag id class children =>
      "<" ++ tag
      ++ match id with Some i => " id=" ++ i | None => "" end
      ++ match class with [] => "" | _ => " class=" ++ Py.join " " class end
      ++ ">"
      ++ (fix strs (cs : list node) : string :=
            match cs with
            | [] => ""
            | c :: cs' => node_str c ++ strs cs'
            end) children
      ++ "</" ++ tag ++ ">"
  | NavigableString text => text
  end.

Definition node_is_tag (n : node) : bool :=
  match n with
  | Tag _ _ _ _ => true
  | NavigableString _ => false
  end.

Definition node_name (n : node) : string :=
  match n with
  | Tag tag _ _ _ => tag
  | NavigableString _ => ""
  end.

Definition node_class (n : node) : list string :=
  match n with
  | Tag _ _ class _ => class
  | NavigableString _ => []
  end.

Definition node_id (n : node) : option string :=
  match n with
  | Tag _ id _ _ => id
  | NavigableString _ => None
  end.

Definition on_node {A : Type} (f : node -> A) (d : A) (e : element) : A :=
  match element_node e with
  | Some n => f n
  | None => d
  end.

Definition at_path (e : element) (p : list nat) : element :=
  {| document := document e; path := p |}.

(** The first position of [positions] whose node satisfies [test]. *)
Definition first_match (e : element) (test : node -> bool) (positions : list (list nat))
    : option element :=
  at_path e <$> List.find (fun p => on_node test false (at_path e p)) positions.

(** The positions strictly below [e], in document order. *)
Definition descendants (e : element) : list (list nat) :=
  match element_node e with
  | Some n => map (app (path e)) (tail (preorder n))
  | None => []
  end.

(** The positions after [e] in document order. *)
Fixpoint positions_after (p : list nat) (all : list (list nat)) : list (list nat) :=
  match all with
  | [] => []
  | q :: rest => if decide (q = p) then rest else positions_after p rest
  end.

Definition tree_parent (e : element) : option element :=
  match path e with
  | [] => None
  | _ => Some (at_path e (removelast (path e)))
  end.

(** The positions of the siblings of [e] in document order, split around
    [e]. *)
Definition siblings (e : element) : list (list nat) * list (list nat) :=
  match tree_parent e with
  | None => ([], [])
  | Some parent =>
      let i := List.last (path e) 0 in
      let n := length (on_node node_children [] parent) in
      (map (fun j => (path parent ++ [j])%list) (seq 0 i),
       map (fun j => (path parent ++ [j])%list) (seq (S i) (n - S i)))
  end.

Definition with_limit {A : Type} (limit : option nat) (l : list A) : list A :=
  match limit with
  | Some n => firstn n l
  | None => l
  end.

Definition tree_find_many (func : find_many_method) (e : element)
    (include_strings : bool) (limit : option nat) : list element :=
  let candidates :=
    match func with
    | find_all_children =>
        map (fun j => (path e ++ [j])%list) (seq 0 (length (on_node node_children [] e)))
    | find_next_siblings => snd (siblings e)
    | find_previous_siblings => rev (fst (siblings e))
    end in
  with_limit limit
    (List.filter (fun x => include_strings || on_node node_is_tag false x)
       (map (at_path e) candidates)).

#[global] Instance tree_soup : BeautifulSoup := {|
  PageElement := element;
  is_tag := on_node node_is_tag false;
  tag_name := on_node node_name "";
  tag_class := on_node node_class [];
  element_text := on_node node_text "";
  element_str := on_node node_str "";
  element_parent := tree_parent;
  find_id := fun soup i =>
    first_match soup (fun n => bool_decide (node_id n = Some i)) (descendants soup);
  find_next := fun e tag class =>
    first_match e
      (fun n => node_is_tag n && String.eqb (node_name n) tag
                && match class with
                   | Some c => bool_decide (c ∈ node_class n)
                   | None => true
                   end)
      (positions_after (path e) (preorder (document e)));
  find_many := tree_find_many;
|}.

(** A parsed page is the element at the root of its document. *)
Definition parse_html (page : node) : element := {| document := page; path := [] |}.

(** Collaborators for concrete runs: the conversion keeps the text,
    shortening keeps the first [width] characters, nothing is escaped. *)
#[global] Instance plain_collaborators : Collaborators := {|
  markdownify := fun html _ => html;
  shorten := fun text width => Py.take width text;
  escape_markdown := fun text => text;
|}.

(** ** cog.py: the tasks of the event loop

    The cog runs on one asyncio event loop: a task runs alone from one
    [await] to the next.  The state of the loop is the cog together with
    its suspended tasks; an [event] resumes one task, or starts one, and
    runs it to its next suspension. *)

Section Coordinator.
Context `{BeautifulSoup} `{Collaborators}.

(** A task that runs [get_symbol_embed(symbol)]. *)
Inductive caller : Type :=
| Fetching (symbol : string) (symbol_data : DocItem)
    (* suspended in [self.bot.http_session.get(symbol_data.url)] *)
| Waiting (symbol : string) (symbol_data : DocItem) (item_event : nat)
    (* suspended in [item_event.wait()] *)
| Returned (embed : option Embed)
| Crashed (e : exn).

(** A task that runs [parse_items(soup)] on the [TODO_PLACEHOLDER] of the
    page [key]; [item] is the loop variable, unbound before the first
    iteration. *)
Inductive parser : Type :=
| Parsing (key : string) (soup : option PageElement) (item : option DocItem)
    (* before the first iteration, or suspended in [asyncio.sleep(0.1)] *)
| Finished (key : string)
| Died (key : string) (e : exn).

Record World : Type := {
  cog : DocCog;
  (** [async_cache.cache] *)
  async_cache_cache : @ordered_dict PageElement;
  callers : list caller;
  parsers : list parser;
  (** the events on which [set()] was called *)
  events_fired : list nat;
  (** how many [asyncio.Event()] were created *)
  events_created : nat;
  (** the URLs requested with [http_session.get], in order *)
  page_requests : list string;
}.

(** The cog after [__init__], nothing running. *)
Definition new_world : World :=
  {| cog := new_cog; async_cache_cache := []; callers := []; parsers := [];
     events_fired := []; events_created := 0; page_requests := [] |}.

Definition with_cog (c : DocCog) (w : World) : World :=
  {| cog := c; async_cache_cache := async_cache_cache w; callers := callers w;
     parsers := parsers w; events_fired := events_fired w;
     events_created := events_created w; page_requests := page_requests w |}.

Definition with_callers (cs : list caller) (w : World) : World :=
  {| cog := cog w; async_cache_cache := async_cache_cache w; callers := cs;
     parsers := parsers w; events_fired := events_fired w;
     events_created := events_created w; page_requests := page_requests w |}.

Definition with_parsers (ps : list parser) (w : World) : World :=
  {| cog := cog w; async_cache_cache := async_cache_cache w; callers := callers w;
     parsers := ps; events_fired := events_fired w;
     events_created := events_created w; page_requests := page_requests w |}.

(** [refresh_inventory] up to its first [await], cog.py lines 249-252. *)
Definition refresh_inventory_clear (w : World) : World :=
  {| cog := {| base_urls := ∅; doc_symbols := ∅; renamed_symbols := ∅;
               urls := urls (cog w); objects := objects (cog w) |};
     async_cache_cache := [];
     callers := callers w; parsers := parsers w; events_fired := events_fired w;
     events_created := events_created w; page_requests := page_requests w |}.

(** The end of [get_symbol_embed], cog.py lines 274 and 289-292: the embed
    stored for the item gets its footer and is returned.  The embed is the
    object held in [self.objects], so the footer shows there too.  The
    names are joined in the order of [elements], which stands for the
    iteration order of the Python set. *)
Definition return_embed (symbol : string) (symbol_data : DocItem) (c : DocCog)
    : result (Embed * DocCog) :=
  match objects c !! name symbol_data with
  | None => Raise KeyError
  | Some embed =>
      let text :=
        Py.join ", "
          (List.filter (fun renamed => Py.endswith renamed ("." ++ symbol))
             (elements (renamed_symbols c ∖ {[symbol]}))) in
      let embed :=
        {| e_title := e_title embed; e_url := e_url embed;
           e_description := e_description embed; e_footer := Some text |} in
      Ok (embed, set_object (name symbol_data) embed c)
  end.

(** [wait_for_item(symbol_info, soup)] on the [TODO_PLACEHOLDER] of [key],
    cog.py lines 84-100, up to [item_event.wait()]: the world and the event
    the caller waits for. *)
Definition wait_for_item (key : string) (symbol_info : DocItem)
    (soup : option PageElement) (w : World) : result (nat * World) :=
  q <-r put_to_front symbol_info (urls_get key (cog w));
  let item_event := events_created w in
  let first_request := bool_decide (item_events q = []) in
  let q := {| queue := queue q; started := started q;
              item_events := events_set symbol_info item_event (item_events q) |} in
  Ok (item_event,
      {| cog := set_urls key q (cog w);
         async_cache_cache := async_cache_cache w;
         callers := callers w;
         parsers := if first_request
                    then (parsers w ++ [Parsing key soup None])%list
                    else parsers w;
         events_fired := events_fired w;
         events_created := S item_event;
         page_requests := page_requests w |}).

(** A caller that reached [wait_for_item]. *)
Definition enter_wait (symbol : string) (symbol_data : DocItem)
    (soup : option PageElement) (w : World) : caller * World :=
  match wait_for_item (page_key symbol_data) symbol_data soup w with
  | Ok (item_event, w') => (Waiting symbol symbol_data item_event, w')
  | Raise e => (Crashed e, w)
  end.

(** A new task calls [get_symbol_embed(symbol)], cog.py lines 276-292 with
    [get_symbol_markdown], lines 263-274, and runs to its first
    suspension. *)
Definition start_request (symbol : string) (w : World) : caller * World :=
  match doc_symbols (cog w) !! symbol with
  | None => (Returned None, w)
  | Some symbol_data =>
      if bool_decide (name symbol_data ∈ dom (objects (cog w)))
      then
        match return_embed symbol symbol_data (cog w) with
        | Ok (embed, c) => (Returned (Some embed), with_cog c w)
        | Raise e => (Crashed e, w)
        end
      else
        let key := page_key symbol_data in
        let q := urls_get key (cog w) in
        let w := with_cog (set_urls key q (cog w)) w in
        if negb (started q)
        then
          (Fetching symbol symbol_data,
           {| cog := cog w; async_cache_cache := async_cache_cache w;
              callers := callers w; parsers := parsers w;
              events_fired := events_fired w; events_created := events_created w;
              page_requests := (page_requests w ++ [url symbol_data])%list |})
        else enter_wait symbol symbol_data None w
  end.

(** [self.queue.pop()]. *)
Definition list_pop (l : list DocItem) : option (DocItem * list DocItem) :=
  match rev l with
  | [] => None
  | x :: rest => Some (x, rev rest)
  end.

(** [parse_items(soup)], cog.py lines 102-116, from the loop test to the
    next [asyncio.sleep(0.1)] or to the end. *)
Definition parse_items_step (key : string) (soup : option PageElement)
    (item : option DocItem) (w : World) : parser * World :=
  let q := urls_get key (cog w) in
  match list_pop (queue q) with
  | None =>
      (match item with
       | Some _ => Finished key
       | None => Died key UnboundLocalError
       end, w)
  | Some (item, rest) =>
      let q := {| queue := rest; started := started q; item_events := item_events q |} in
      let c := set_urls key q (cog w) in
      let markdown :=
        match soup with
        | Some soup => get_symbol_markdown soup item
        | None => Raise AttributeError
        end in
      match markdown with
      | Raise e => (Died key e, with_cog c w)
      | Ok markdown =>
          let embed :=
            {| e_title := escape_markdown (name item); e_url := url item;
               e_description := markdown; e_footer := None |} in
          let c := set_object (name item) embed c in
          (Parsing key soup (Some item),
           {| cog := c; async_cache_cache := async_cache_cache w;
              callers := callers w; parsers := parsers w;
              events_fired := match events_get item (item_events q) with
                              | Some event => event :: events_fired w
                              | None => events_fired w
                              end;
              events_created := events_created w;
              page_requests := page_requests w |})
      end
  end.

(** What moves the loop on. *)
Inductive event : Type :=
| Refresh
    (* [refresh_inventory] clears the index *)
| Update (api_package_name base_url_ : string) (fetched : option inventory)
    (* one [update_single], resumed with the inventory it fetched *)
| Request (symbol : string)
    (* a new task calls [get_symbol_embed(symbol)] *)
| Response (task : nat) (soup : PageElement)
    (* the page a caller requested arrives, parsed and without its head *)
| Parse (task : nat)
    (* a [parse_items] task runs one turn *)
| Wake (task : nat).
    (* a caller whose event is set resumes *)

(** One turn of the loop; [None] when the event cannot happen in [w]. *)
Definition step (ev : event) (w : World) : option World :=
  match ev with
  | Refresh => Some (refresh_inventory_clear w)
  | Update api_package_name base_url_ fetched =>
      Some (with_cog (final_cog (update_single api_package_name base_url_ fetched (cog w))) w)
  | Request symbol =>
      let '(task, w') := start_request symbol w in
      Some (with_callers (callers w' ++ [task])%list w')
  | Response task soup =>
      match callers w !! task with
      | Some (Fetching symbol symbol_data) =>
          let '(task', w') := enter_wait symbol symbol_data (Some soup) w in
          Some (with_callers (<[task := task']> (callers w')) w')
      | _ => None
      end
  | Parse task =>
      match parsers w !! task with
      | Some (Parsing key soup item) =>
          let '(task', w') := parse_items_step key soup item w in
          Some (with_parsers (<[task := task']> (parsers w')) w')
      | _ => None
      end
  | Wake task =>
      match callers w !! task with
      | Some (Waiting symbol symbol_data item_event) =>
          if bool_decide (item_event ∈ events_fired w)
          then
            match return_embed symbol symbol_data (cog w) with
            | Ok (embed, c) =>
                Some (with_callers (<[task := Returned (Some embed)]> (callers w))
                        (with_cog c w))
            | Raise e =>
                Some (with_callers (<[task := Crashed e]> (callers w)) w)
            end
          else None
      | _ => None
      end
  end.

(** A run of the loop. *)
Fixpoint exec (evs : list event) (w : World) : option World :=
  match evs with
  | [] => Some w
  | ev :: rest =>
      match step ev w with
      | Some w' => exec rest w'
      | None => None
      end
  end.

(** The parse tasks of the page [key] that are running. *)
Definition running (key : string) (w : World) : list parser :=
  List.filter (fun p => match p with
                        | Parsing k _ _ => String.eqb k key
                        | _ => false
                        end) (parsers w).

End Coordinator.

(** ** What one turn of the loop changes

    The pages are read through the [defaultdict], so two cogs have the same
    pages when [urls_get] agrees on every key. *)

(** The index grew: the results are the same, and each page kept its flag,
    its events and its queue, to which entries may have been added. *)
Definition extends (c c' : DocCog) : Prop :=
  objects c' = objects c
  /\ forall key,
       started (urls_get key c') = started (urls_get key c)
       /\ item_events (urls_get key c') = item_events (urls_get key c)
       /\ exists added,
            queue (urls_get key c') = (queue (urls_get key c) ++ added)%list.

Section Changes.
Context `{BeautifulSoup} `{Collaborators}.

Definition queue_of (key : string) (w : World) : list DocItem :=
  queue (urls_get key (cog w)).

Definition parser_key (p : parser) : string :=
  match p with
  | Parsing key _ _ => key
  | Finished key => key
  | Died key _ => key
  end.

(** The markdown of [item] on the page that a parse task holds. *)
Definition render (soup : option PageElement) (item : DocItem) : result string :=
  match soup with
  | Some soup => get_symbol_markdown soup item
  | None => Raise AttributeError
  end.

(** The embed that [parse_items] stores for [item]. *)
Definition new_embed (item : DocItem) (markdown : string) : Embed :=
  {| e_title := escape_markdown (name item); e_url := url item;
     e_description := markdown; e_footer := None |}.

(** The changes of the cog and of the parse tasks that one turn is made
    of. *)
Inductive change (w w' : World) : Prop :=
| change_index :
    (* ingestion, a refresh, a page looked up *)
    extends (cog w) (cog w') ->
    parsers w' = parsers w ->
    change w w'
| change_footer (symbol_name : string) (embed embed' : Embed) :
    (* a stored embed gets its footer *)
    objects (cog w) !! symbol_name = Some embed ->
    e_title embed' = e_title embed ->
    e_url embed' = e_url embed ->
    e_description embed' = e_description embed ->
    objects (cog w') = <[symbol_name := embed']> (objects (cog w)) ->
    (forall key, urls_get key (cog w') = urls_get key (cog w)) ->
    parsers w' = parsers w ->
    change w w'
| change_wait (key : string) (item : DocItem) (soup : option PageElement)
    (rest : list DocItem) (item_event : nat) :
    (* [wait_for_item] up to the wait *)
    list_remove item (queue_of key w) = Ok rest ->
    urls_get key (cog w')
      = {| queue := rest ++ [item]; started := started (urls_get key (cog w));
           item_events := events_set item item_event (item_events (urls_get key (cog w))) |} ->
    (forall key', key' <> key -> urls_get key' (cog w') = urls_get key' (cog w)) ->
    objects (cog w') = objects (cog w) ->
    parsers w'
      = (if bool_decide (item_events (urls_get key (cog w)) = [])
         then (parsers w ++ [Parsing key soup None])%list
         else parsers w) ->
    change w w'
| change_parse_end (task : nat) (key : string) (soup : option PageElement)
    (item : option DocItem) (p : parser) :
    (* [parse_items] finds its queue empty *)
    parsers w !! task = Some (Parsing key soup item) ->
    queue_of key w = [] ->
    p = Finished key \/ p = Died key UnboundLocalError ->
    (forall key', urls_get key' (cog w') = urls_get key' (cog w)) ->
    objects (cog w') = objects (cog w) ->
    parsers w' = <[task := p]> (parsers w) ->
    change w w'
| change_parse_item (task : nat) (key : string) (soup : option PageElement)
    (last : option DocItem) (item : DocItem) (rest : list DocItem) :
    (* [parse_items] takes an entry off its queue *)
    parsers w !! task = Some (Parsing key soup last) ->
    queue_of key w = (rest ++ [item])%list ->
    urls_get key (cog w')
      = {| queue := rest; started := started (urls_get key (cog w));
           item_events := item_events (urls_get key (cog w)) |} ->
    (forall key', key' <> key -> urls_get key' (cog w') = urls_get key' (cog w)) ->
    (exists markdown,
        render soup item = Ok markdown
        /\ objects (cog w') = <[name item := new_embed item markdown]> (objects (cog w))
        /\ parsers w' = <[task := Parsing key soup (Some item)]> (parsers w))
    \/ (exists e,
          render soup item = Raise e
          /\ objects (cog w') = objects (cog w)
          /\ parsers w' = <[task := Died key e]> (parsers w)) ->
    change w w'.

(** Every parse task of a page is the only one, and a page whose
    [item_events] is empty has none. *)
Definition one_parser_per_page (w : World) : Prop :=
  (forall key, item_events (urls_get key (cog w)) = [] ->
               key ∉ map parser_key (parsers w))
  /\ NoDup (map parser_key (parsers w)).

(** No page was ever marked as started. *)
Definition never_started (w : World) : Prop :=
  forall key, started (urls_get key (cog w)) = false.



End Changes.

(** ** A page and its inventory, for concrete runs

    One package documents the classes [A] and [B] on one page; its inventory
    also lists [C], for which the page has no anchor. *)

Definition example_page : node :=
  Tag "html" None [] [
    Tag "body" None [] [
      Tag "dl" None ["py"; "class"] [
        Tag "dt" (Some "a") [] [NavigableString "class A(x)"];
        Tag "dd" None [] [Tag "p" None [] [NavigableString "An A."]]];
      Tag "dl" None ["py"; "class"] [
        Tag "dt" (Some "b") [] [NavigableString "class B(y)"];
        Tag "dd" None [] [Tag "p" None [] [NavigableString "A B."]]]]].

(** The same page after the documentation was rebuilt. *)
Definition example_page_rebuilt : node :=
  Tag "html" None [] [
    Tag "body" None [] [
      Tag "dl" None ["py"; "class"] [
        Tag "dt" (Some "a") [] [NavigableString "class A(x, z)"];
        Tag "dd" None [] [Tag "p" None [] [NavigableString "A new A."]]]]].

Definition example_base_url : string := "https://docs.example/w/".

Definition example_inventory : inventory :=
  [("py:class", [("a", ("W", "1.0", "api.html#a", "-"));
                 ("b", ("W", "1.0", "api.html#b", "-"))])].

Definition example_inventory_c : inventory :=
  [("py:class", [("c", ("W", "1.0", "api.html#c", "-"))])].

Definition example_item (symbol : string) : DocItem :=
  new_item symbol "w" "class" example_base_url ("api.html#" ++ symbol).

(** The world that a run from the new cog ends in. *)
Definition world_after (evs : list event) : World :=
  default new_world (exec evs new_world).

(** ** Predicates on texts and elements, for the properties of parsing.py *)

(** Whether whitespace comes right after two newlines somewhere in [s],
    when [newlines] newlines end the text before [s]. *)
Fixpoint whitespace_after_blank_line (s : string) (newlines : nat) : bool :=
  match s with
  | EmptyString => false
  | String c s' =>
      (Py.isspace c && (2 <=? newlines)%nat)
      || whitespace_after_blank_line s'
           (if Ascii.eqb c "010"%char then Nat.min 2 (S newlines) else 0)
  end.

(** The characters of [s] that are not whitespace. *)
Fixpoint without_whitespace (s : string) : string :=
  match s with
  | EmptyString => EmptyString
  | String c s' =>
      if Py.isspace c then without_whitespace s' else String c (without_whitespace s')
  end.

(** Whether the loop of [_find_elements_until_tag] breaks at [element]. *)
Definition breaks_at `{BeautifulSoup} (tag_filter : tag_filter_t)
    (element : PageElement) : bool :=
  is_tag element &&
  match tag_filter with
  | inl names => bool_decide (tag_name element ∈ names)
  | inr matches => matches element
  end.

(** Whether [get_symbol_markdown] takes the general description of the
    heading found for [symbol_data], parsing.py lines 207 and 211. *)
Definition general_description_is_used `{BeautifulSoup} (symbol_data : DocItem)
    (heading : PageElement) : bool :=
  bool_decide (group symbol_data ∈ ["module"; "doc"; "label"])
  || negb (String.eqb (tag_name heading) "dt").

(** ** cog.py: [_fetch_inventory] *)

(** What one call of [intersphinx.fetch_inventory] in the executor does:
    it returns the inventory or raises. *)
Inductive fetch_outcome : Type :=
| Fetched (package_ : inventory)
| ConnectTimeout
| ProtocolError
| HTTPError (status_code : nat)
| ConnectionError
| OtherException (e : exn).

Definition FAILED_REQUEST_RETRY_AMOUNT : nat := 3.

(** The loop of [_fetch_inventory], cog.py lines 434-456, from the attempt
    [retry] on with [remaining] attempts to go; [fetch n] is what the
    [n]-th call does.  With the result comes the number of calls made. *)
Fixpoint fetch_attempts (fetch : nat -> fetch_outcome) (retry remaining : nat)
    : result (option inventory) * nat :=
  match remaining with
  | O => (Ok None, retry - 1)
  | S remaining' =>
      match fetch retry with
      | ConnectTimeout | ProtocolError => fetch_attempts fetch (S retry) remaining'
      | HTTPError _ | ConnectionError => (Ok None, retry)
      | Fetched package_ => (Ok (Some package_), retry)
      | OtherException e => (Raise e, retry)
      end
  end.

(** [_fetch_inventory(inventory_url)]. *)
Definition _fetch_inventory (fetch : nat -> fetch_outcome)
    : result (option inventory) * nat :=
  fetch_attempts fetch 1 FAILED_REQUEST_RETRY_AMOUNT.

(** The errors after which [_fetch_inventory] tries again. *)
Definition transient (o : fetch_outcome) : bool :=
  match o with
  | ConnectTimeout | ProtocolError => true
  | _ => false
  end.

(** [update_single] with its fetch: an exception of [_fetch_inventory]
    leaves it after the base URL was stored. *)
Definition update_single_fetching (api_package_name base_url_ : string)
    (fetch : nat -> fetch_outcome) (cog : DocCog) : outcome :=
  match fst (_fetch_inventory fetch) with
  | Ok fetched => update_single api_package_name base_url_ fetched cog
  | Raise e => Failed e (set_base_url api_package_name base_url_ cog)
  end.

(** ** The table of the cog *)

(** What [refresh_inventory] clears and ingestion rebuilds. *)
Definition index_of (c : DocCog)
    : gmap string string * gmap string DocItem * gset string :=
  (base_urls c, doc_symbols c, renamed_symbols c).

(** The table is in order: every renamed name is a key of the table; an
    entry is stored under its own name or under a renamed name; the package
    of every entry is a listed package. *)
Definition table_in_order (c : DocCog) : Prop :=
  (forall renamed, renamed ∈ renamed_symbols c -> is_Some (doc_symbols c !! renamed))
  /\ (forall key item, doc_symbols c !! key = Some item ->
                       name item = key \/ key ∈ renamed_symbols c)
  /\ (forall key item, doc_symbols c !! key = Some item ->
                       is_Some (base_urls c !! package item)).

(** Two ends of a run of statements that agree on the table. *)
Definition same_table (o1 o2 : outcome) : Prop :=
  match o1, o2 with
  | Done c1, Done c2 => index_of c1 = index_of c2
  | Failed e1 c1, Failed e2 c2 => e1 = e2 /\ index_of c1 = index_of c2
  | _, _ => False
  end.

(** A refresh: the index is cleared and the sources are ingested one after
    the other, each with what its fetch returned. *)
Definition refresh_run `{BeautifulSoup} (sources : list (string * string * option inventory))
    : list event :=
  Refresh :: map (fun '(api_package_name, base_url_, fetched) =>
                    Update api_package_name base_url_ fetched) sources.

(* ===================================================================== *)
(** * Part II.  Theorems                                                  *)
(* ===================================================================== *)

(** ** Strings *)

Lemma length_append (s t : string) :
  String.length (s ++ t) = String.length s + String.length t.
Proof. induction s as [|c s IH]; simpl; [reflexivity | now rewrite IH]. Qed.

Lemma take_length_le (n : nat) (s : string) : String.length (Py.take n s) <= n.
Proof.
  revert s; induction n as [|n IH]; intros [|c s]; simpl; try lia.
  specialize (IH s); lia.
Qed.

Lemma take_length_le_string (n : nat) (s : string) :
  String.length (Py.take n s) <= String.length s.
Proof.
  revert s; induction n as [|n IH]; intros [|c s]; simpl; try lia.
  specialize (IH s); lia.
Qed.

Lemma take_all (n : nat) (s : string) :
  String.length s <= n -> Py.take n s = s.
Proof.
  revert s; induction n as [|n IH]; intros [|c s]; simpl; intros Hl;
    try reflexivity; try lia.
  f_equal; apply IH; lia.
Qed.

Lemma slice_to_length_le_string (s : string) (i : Z) :
  String.length (Py.slice_to s i) <= String.length s.
Proof. unfold Py.slice_to; destruct (i <? 0)%Z; apply take_length_le_string. Qed.

Lemma slice_to_length_le (s : string) (i : Z) :
  (0 <= i)%Z -> (Z.of_nat (String.length (Py.slice_to s i)) <= i)%Z.
Proof.
  intros Hi; unfold Py.slice_to.
  destruct (Z.ltb_spec i 0); [lia|].
  pose proof (take_length_le (Z.to_nat i) s); lia.
Qed.

Lemma rstrip_by_length_le (p : ascii -> bool) (s : string) :
  String.length (Py.rstrip_by p s) <= String.length s.
Proof.
  induction s as [|c s IH]; simpl; [lia|].
  destruct (Py.rstrip_by p s); simpl in *; [destruct (p c); simpl; lia | lia].
Qed.

Lemma rfind_at_bounds (sub s : string) (pos start i : nat) :
  Py.rfind_at sub s pos start = Some i -> pos <= i <= pos + String.length s.
Proof.
  revert pos; induction s as [|c s IH]; intros pos; simpl.
  - destruct (_ && _); intros [= <-]; lia.
  - destruct (Py.rfind_at sub s (S pos) start) as [j|] eqn:E.
    + intros [= <-]; apply IH in E; lia.
    + destruct (_ && _); intros [= <-]; lia.
Qed.

Lemma rfind_bounds (s sub : string) (start : nat) :
  (-1 <= Py.rfind s sub start <= Z.of_nat (String.length s))%Z.
Proof.
  unfold Py.rfind; destruct (Py.rfind_at sub s 0 start) as [i|] eqn:E; [|lia].
  apply rfind_at_bounds in E; lia.
Qed.

Lemma search_cutoff_bounds (shortened : string) (cutoff_strings : list string)
    (max_length : Z) :
  (Z.of_nat (String.length shortened) <= max_length)%Z ->
  (0 <= search_cutoff shortened cutoff_strings max_length <= max_length)%Z.
Proof.
  intros Hs; induction cutoff_strings as [|c cs IH]; simpl; [lia|].
  pose proof (rfind_bounds shortened c 0).
  destruct (Z.eqb_spec (Py.rfind shortened c 0) (-1)); [exact IH | lia].
Qed.

Lemma endswith_append (s p : string) : Py.endswith (s ++ p) p = true.
Proof.
  unfold Py.endswith; rewrite length_append.
  apply andb_true_intro; split; [apply Nat.leb_le; lia|].
  replace (String.length s + String.length p - String.length p) with (String.length s) by lia.
  apply String.eqb_eq.
  induction s as [|c s IH]; simpl; [|exact IH].
  destruct p; reflexivity.
Qed.

(** ** Truncation *)

(** A text no longer than [max_length] is returned as it is. *)
Lemma truncate_markdown_short (markdown : string) (max_length : Z) :
  (Z.of_nat (String.length markdown) <= max_length)%Z ->
  _truncate_markdown markdown max_length = markdown.
Proof.
  intros Hl; unfold _truncate_markdown.
  destruct (Z.gtb_spec (Z.of_nat (String.length markdown)) max_length); [lia | reflexivity].
Qed.

(** A longer text always ends in the ellipsis. *)
Lemma truncate_markdown_ellipsis (markdown : string) (max_length : Z) :
  (Z.of_nat (String.length markdown) > max_length)%Z ->
  Py.endswith (_truncate_markdown markdown max_length) "..." = true.
Proof.
  intros Hl; unfold _truncate_markdown.
  destruct (Z.gtb_spec (Z.of_nat (String.length markdown)) max_length); [|lia].
  apply endswith_append.
Qed.

(** What the code guarantees on the length: the cut text has at most
    [max_length] characters, and the ellipsis comes on top of it. *)
Lemma truncate_markdown_length (markdown : string) (max_length : Z) :
  (0 <= max_length)%Z ->
  (Z.of_nat (String.length markdown) > max_length)%Z ->
  (Z.of_nat (String.length (_truncate_markdown markdown max_length)) <= max_length + 3)%Z.
Proof.
  intros H0 Hl; unfold _truncate_markdown.
  destruct (Z.gtb_spec (Z.of_nat (String.length markdown)) max_length); [|lia].
  set (shortened := Py.slice_to markdown max_length).
  assert (Hs : (Z.of_nat (String.length shortened) <= max_length)%Z)
    by (apply slice_to_length_le; exact H0).
  set (cutoff := if (Py.rfind shortened (Py.nl ++ Py.nl) 100 =? -1)%Z then _ else _).
  assert (Hc : (0 <= cutoff <= max_length)%Z).
  { subst cutoff.
    pose proof (rfind_bounds shortened (Py.nl ++ Py.nl) 100).
    destruct (Z.eqb_spec (Py.rfind shortened (Py.nl ++ Py.nl) 100) (-1));
      [apply search_cutoff_bounds; exact Hs | lia]. }
  pose proof (slice_to_length_le markdown cutoff (proj1 Hc)) as Hcut.
  set (cut := Py.slice_to markdown cutoff) in *.
  rewrite length_append; change (String.length "...") with 3.
  unfold Py.rstrip_chars.
  match goal with |- context [Py.rstrip_by ?p ?x] =>
    pose proof (rstrip_by_length_le p x) as Hr end.
  destruct (Nat.odd (Py.count cut "```")).
  - unfold Py.rstrip in *.
    pose proof (rstrip_by_length_le Py.isspace (Py.slice_to cut (Py.rfind cut "```py" 0))).
    pose proof (slice_to_length_le_string cut (Py.rfind cut "```py" 0)).
    lia.
  - lia.
Qed.

(** C3 (defect of the code).  The docstring of [_truncate_markdown]
    promises a text of at most [max_length] characters.  For the text of
    2000 letters [a] and [max_length = 1000] no cutoff string occurs, the
    text is cut at 1000 characters and the ellipsis is appended to them: the
    result has 1003 characters. *)
Theorem truncate_markdown_2000_letters :
  String.length (Py.repeat "a" 2000) = 2000
  /\ _truncate_markdown (Py.repeat "a" 2000) 1000 = Py.repeat "a" 1000 ++ "..."
  /\ String.length (_truncate_markdown (Py.repeat "a" 2000) 1000) = 1003.
Proof. vm_compute. repeat split. Qed.

(** The cut goes back to the last fence tagged [py]: a fence without the
    tag stays open. *)
Lemma truncate_markdown_untagged_fence :
  let markdown := "```" ++ Py.nl ++ Py.repeat "a" 2000 in
  Py.count (_truncate_markdown markdown 1000) "```" = 1
  /\ String.length (_truncate_markdown markdown 1000) = 1002.
Proof. vm_compute. split; reflexivity. Qed.

(** An open fence tagged [py] is cut out. *)
Example truncate_markdown_tagged_fence :
  let markdown := "Text. ```py" ++ Py.nl ++ Py.repeat "a" 2000 in
  _truncate_markdown markdown 1000 = "Text...".
Proof. vm_compute. reflexivity. Qed.

(** ** Assembly *)

Section AssemblyFacts.
Context `{Collaborators}.

(** The assembly of doc.py follows the three cases. *)
Lemma embed_description_cases (description : string) :
  embed_description None description = description
  /\ embed_description (Some []) description
     = "This appears to be a generic page not tied to a specific symbol."
  /\ forall signature signatures,
       embed_description (Some (signature :: signatures)) description
       = Py.join "" (map code_block (signature :: signatures))
         ++ Py.nl ++ description.
Proof. repeat split. Qed.

(** The assembly of parsing.py: the code blocks, if any, then a newline and
    the description, in every case. *)
Lemma parse_into_markdown_unfold (signatures : option (list string))
    (description url : string) :
  _parse_into_markdown signatures description url
  = Py.join "" (map code_block (default [] signatures))
    ++ Py.nl ++ rendered_description description url.
Proof. destruct signatures; reflexivity. Qed.

(** C8 (defect of the code).  With a signature list that is present and
    empty, [_parse_into_markdown] returns a newline and the description, not
    the fixed text that [Doc.get_symbol_embed] of doc.py gives for such a
    page; without signatures the description comes after a newline. *)
Theorem parse_into_markdown_empty_signatures (description url : string) :
  _parse_into_markdown (Some []) description url
    = Py.nl ++ rendered_description description url
  /\ _parse_into_markdown (Some []) description url
     <> "This appears to be a generic page not tied to a specific symbol."
  /\ embed_description (Some []) (rendered_description description url)
     = "This appears to be a generic page not tied to a specific symbol."
  /\ _parse_into_markdown None description url
     = Py.nl ++ rendered_description description url.
Proof.
  rewrite !parse_into_markdown_unfold; simpl.
  repeat split; intros Heq; discriminate Heq.
Qed.

End AssemblyFacts.

(** ** The cache *)

Section CacheFacts.
Context {V : Type}.
Implicit Types (d : @ordered_dict V) (st : @cache_state V).

Lemma od_lookup_None d key : key ∉ map fst d -> od_lookup key d = None.
Proof.
  induction d as [|[k v] d IH]; simpl; [reflexivity|].
  intros Hn; destruct (String.eqb_spec k key) as [->|Hk].
  - exfalso; apply Hn; left.
  - apply IH; intros Hin; apply Hn; now right.
Qed.

Lemma od_lookup_set_eq d key v : od_lookup key (od_set key v d) = Some v.
Proof.
  induction d as [|[k w] d IH]; simpl.
  - now rewrite String.eqb_refl.
  - destruct (String.eqb_spec k key) as [->|Hk]; simpl.
    + now rewrite String.eqb_refl.
    + destruct (String.eqb_spec k key); [contradiction | exact IH].
Qed.

Lemma od_lookup_set_ne d key k v :
  k <> key -> od_lookup k (od_set key v d) = od_lookup k d.
Proof.
  intros Hk; induction d as [|[k' w] d IH]; simpl.
  - destruct (String.eqb_spec key k); [congruence | reflexivity].
  - destruct (String.eqb_spec k' key) as [->|Hk']; simpl.
    + destruct (String.eqb_spec key k); [congruence | reflexivity].
    + destruct (String.eqb_spec k' k); [reflexivity | exact IH].
Qed.

Lemma od_set_keys d key v :
  map fst (od_set key v d)
  = if bool_decide (key ∈ map fst d) then map fst d else (map fst d ++ [key])%list.
Proof.
  induction d as [|[k w] d IH]; simpl; [reflexivity|].
  destruct (String.eqb_spec k key) as [->|Hk]; simpl.
  - rewrite bool_decide_eq_true_2; [reflexivity | left].
  - rewrite IH.
    destruct (decide (key ∈ map fst d)) as [Hin|Hin].
    + rewrite !bool_decide_eq_true_2; [reflexivity | now right | exact Hin].
    + rewrite !bool_decide_eq_false_2; [reflexivity | | exact Hin].
      intros [Heq|Hin']%elem_of_cons; [congruence | contradiction].
Qed.

Lemma od_set_NoDup d key v : NoDup (map fst d) -> NoDup (map fst (od_set key v d)).
Proof.
  intros Hd; rewrite od_set_keys; case_bool_decide as Hin; [exact Hd|].
  apply NoDup_app; repeat split; [exact Hd | | apply NoDup_singleton].
  intros x Hx ->%list_elem_of_singleton; contradiction.
Qed.

(** Dropping the oldest entry of a dictionary cannot bring a value back. *)
Lemma od_get_tail (entry : string * option V) d key :
  NoDup (map fst (entry :: d)) -> od_get key (entry :: d) = None -> od_get key d = None.
Proof.
  destruct entry as [k v]; unfold od_get; simpl.
  intros [Hk Hd]%NoDup_cons.
  destruct (String.eqb_spec k key) as [->|Hne]; [|tauto].
  intros _; now rewrite od_lookup_None.
Qed.

(** A call that finds no value under its key calls the wrapped function
    and stores what it returns. *)
Lemma wrapper_miss (max_size : Z) (arg_offset : nat)
    (function : list string -> option V) (args : list string) st :
  od_get (cache_key arg_offset args) (cache st) = None ->
  forall v st', wrapper max_size arg_offset function args st = Ok (v, st') ->
    v = function args
    /\ calls st' = (calls st ++ [args])%list
    /\ od_lookup (cache_key arg_offset args) (cache st') = Some (function args)
    /\ exists c, cache st' = od_set (cache_key arg_offset args) (function args) c
                 /\ (c = cache st \/ c = tail (cache st)).
Proof.
  intros Hget v st'; unfold wrapper; rewrite Hget.
  destruct (_ >? _)%Z.
  - destruct (cache st) as [|e d] eqn:Ec; simpl; [discriminate|].
    intros [= <- <-]; simpl; unfold od_get; rewrite od_lookup_set_eq.
    repeat split; eauto.
  - simpl; intros [= <- <-]; simpl; unfold od_get; rewrite od_lookup_set_eq.
    repeat split; eauto.
Qed.

(** A call that finds a value returns it: the wrapped function is not
    called and the cache stays as it is. *)
Lemma wrapper_hit (max_size : Z) (arg_offset : nat)
    (function : list string -> option V) (args : list string) st (v : V) :
  od_get (cache_key arg_offset args) (cache st) = Some v ->
  wrapper max_size arg_offset function args st = Ok (Some v, st).
Proof. intros Hget; unfold wrapper; now rewrite Hget. Qed.

Lemma wrapper_NoDup (max_size : Z) (arg_offset : nat)
    (function : list string -> option V) (args : list string) st v st' :
  NoDup (map fst (cache st)) ->
  wrapper max_size arg_offset function args st = Ok (v, st') ->
  NoDup (map fst (cache st')).
Proof.
  intros Hd Hw.
  destruct (od_get (cache_key arg_offset args) (cache st)) as [x|] eqn:Hget.
  - rewrite (wrapper_hit _ _ _ _ _ x Hget) in Hw; now inversion Hw; subst.
  - destruct (wrapper_miss _ _ _ _ _ Hget _ _ Hw) as (_ & _ & _ & c & -> & [->| ->]);
      apply od_set_NoDup; [exact Hd|].
    destruct (cache st); [constructor | now apply NoDup_cons in Hd].
Qed.

(** While the wrapped function finds nothing for [key], no call leaves a
    value under [key]. *)
Lemma wrapper_keeps_none (max_size : Z) (arg_offset : nat)
    (function : list string -> option V) (key : string) (args : list string)
    st v st' :
  (forall a, cache_key arg_offset a = key -> function a = None) ->
  NoDup (map fst (cache st)) ->
  od_get key (cache st) = None ->
  wrapper max_size arg_offset function args st = Ok (v, st') ->
  od_get key (cache st') = None.
Proof.
  intros Hf Hd Hk Hw.
  destruct (od_get (cache_key arg_offset args) (cache st)) as [x|] eqn:Hget.
  - rewrite (wrapper_hit _ _ _ _ _ x Hget) in Hw; now inversion Hw; subst.
  - destruct (wrapper_miss _ _ _ _ _ Hget _ _ Hw) as (_ & _ & _ & c & -> & Hc).
    assert (Hkc : od_get key c = None).
    { destruct Hc as [->| ->]; [exact Hk|].
      destruct (cache st) as [|e d]; [reflexivity | now apply (od_get_tail e)]. }
    unfold od_get in *.
    destruct (decide (key = cache_key arg_offset args)) as [->|Hne].
    + rewrite od_lookup_set_eq; now apply Hf.
    + now rewrite od_lookup_set_ne.
Qed.

Lemma run_calls_keeps_none (max_size : Z) (arg_offset : nat)
    (function : list string -> option V) (key : string)
    (requests : list (list string)) st st' :
  (forall a, cache_key arg_offset a = key -> function a = None) ->
  NoDup (map fst (cache st)) ->
  od_get key (cache st) = None ->
  run_calls max_size arg_offset function requests st = Ok st' ->
  NoDup (map fst (cache st')) /\ od_get key (cache st') = None.
Proof.
  intros Hf; revert st; induction requests as [|args rest IH]; simpl; intros st Hd Hk.
  - intros [= <-]; now split.
  - destruct (wrapper max_size arg_offset function args st) as [[v st1]|e] eqn:Hw;
      simpl; [|discriminate].
    apply IH; [eapply wrapper_NoDup | eapply wrapper_keeps_none]; eauto.
Qed.

(** C9.  A result [None] is stored and never served.  Let the wrapped
    function return [None] for the arguments of a key.  After any calls
    whatever, a call with that key calls the wrapped function again, returns
    [None], and leaves [None] stored under the key. *)
Theorem async_cache_none_is_never_served (max_size : Z) (arg_offset : nat)
    (function : list string -> option V) (key : string)
    (requests : list (list string)) (args : list string) st st1 v st2 :
  (forall a, cache_key arg_offset a = key -> function a = None) ->
  NoDup (map fst (cache st)) ->
  od_get key (cache st) = None ->
  run_calls max_size arg_offset function requests st = Ok st1 ->
  cache_key arg_offset args = key ->
  wrapper max_size arg_offset function args st1 = Ok (v, st2) ->
  v = None
  /\ calls st2 = (calls st1 ++ [args])%list
  /\ od_lookup key (cache st2) = Some None.
Proof.
  intros Hf Hd Hk Hrun Hkey Hw.
  destruct (run_calls_keeps_none _ _ _ _ _ _ _ Hf Hd Hk Hrun) as [_ Hk1].
  rewrite <- Hkey in Hk1.
  destruct (wrapper_miss _ _ _ _ _ Hk1 _ _ Hw) as (-> & Hcalls & Hstored & _).
  rewrite (Hf args Hkey) in *; subst key; auto.
Qed.

End CacheFacts.

(** A symbol that is not known is looked up anew at each of three requests
    in a row, and at the one after them. *)
Lemma async_cache_none_is_never_served_witness :
  exists st1 st2,
    run_calls 128 1 unknown_symbol [["self"; "x"]; ["self"; "y"]; ["self"; "x"]] fresh_cache
      = Ok st1
    /\ wrapper 128 1 unknown_symbol ["self"; "x"] st1 = Ok (None, st2)
    /\ calls st2 = (calls st1 ++ [["self"; "x"]])%list
    /\ od_lookup "x" (cache st2) = Some None.
Proof.
  eexists; eexists.
  split; [vm_compute; reflexivity|].
  split; [vm_compute; reflexivity|].
  refine (proj2 (async_cache_none_is_never_served 128 1 unknown_symbol "x"
            [["self"; "x"]; ["self"; "y"]; ["self"; "x"]] ["self"; "x"]
            fresh_cache _ None _ _ _ _ _ _ _)).
  - intros a _; reflexivity.
  - simpl; constructor.
  - reflexivity.
  - vm_compute; reflexivity.
  - reflexivity.
  - vm_compute; reflexivity.
Defined.

(** C4 (defect of the code).  The size is tested before the new entry is
    stored and against [> max_size], so the cache grows to [max_size + 1]
    entries: after 129 distinct keys with [max_size = 128] nothing was
    evicted, the 129 keys are all stored, and the first key is still served
    from the cache, without a call of the wrapped function. *)
Theorem async_cache_129_keys_evict_nothing :
  exists st,
    run_calls 128 1 test_function (test_requests 129) fresh_cache = Ok st
    /\ NoDup (map test_key (seq 0 129))
    /\ map fst (cache st) = map test_key (seq 0 129)
    /\ length (calls st) = 129
    /\ wrapper 128 1 test_function ["self"; test_key 0] st = Ok (Some "self+k0", st).
Proof.
  eexists; split; [vm_compute; reflexivity|].
  split; [apply (bool_decide_unpack _); vm_compute; reflexivity|].
  vm_compute; repeat split.
Qed.

(** The first key goes with the key after those: eviction starts at
    [max_size + 2] keys, oldest first. *)
Lemma async_cache_130_keys_evict_first :
  exists st,
    run_calls 128 1 test_function (test_requests 130) fresh_cache = Ok st
    /\ map fst (cache st) = map test_key (seq 1 129)
    /\ od_lookup (test_key 0) (cache st) = None.
Proof. eexists; split; [vm_compute; reflexivity|]. vm_compute; split; reflexivity. Qed.

(** A read does not move an entry: after the first key was served from the
    cache it is still the first to go. *)
Lemma async_cache_reads_do_not_refresh :
  exists st,
    run_calls 128 1 test_function
      (test_requests 129 ++ [["self"; test_key 0]; ["self"; test_key 129]])%list
      fresh_cache = Ok st
    /\ length (calls st) = 130
    /\ od_lookup (test_key 0) (cache st) = None
    /\ map fst (cache st) = map test_key (seq 1 129).
Proof. eexists; split; [vm_compute; reflexivity|]. vm_compute; repeat split. Qed.

(** ** Ingestion *)

Lemma prefixed_ne (prefix_ symbol : string) : prefix_ ++ "." ++ symbol <> symbol.
Proof.
  intros Heq; apply (f_equal String.length) in Heq.
  rewrite !length_append in Heq; simpl in Heq; lia.
Qed.

Lemma store_item_symbols (item : DocItem) (cog : DocCog) :
  doc_symbols (store_item item cog) = <[name item := item]> (doc_symbols cog).
Proof. reflexivity. Qed.

Lemma store_item_renamed (item : DocItem) (cog : DocCog) :
  renamed_symbols (store_item item cog) = renamed_symbols cog.
Proof. reflexivity. Qed.

Section UpdateSymbol.
Variables (api_package_name base_url_ group_ symbol relative_doc_url : string).
Variables (cog : DocCog) (group_name : string).
Hypothesis Hslash : Py.contains "/" symbol = false.
Hypothesis Hgroup : Py.index (Py.split group_ ":" None) 1 = Ok group_name.

(** A name that is free is taken as it is. *)
Lemma update_symbol_free :
  doc_symbols cog !! symbol = None ->
  update_symbol api_package_name base_url_ group_ symbol relative_doc_url cog
  = Ok (store_item (new_item symbol api_package_name group_name base_url_ relative_doc_url)
          cog).
Proof.
  intros Hfree; unfold update_symbol, new_item, store_item.
  rewrite Hslash, Hgroup; cbn [rbind]; rewrite Hfree; cbn [rbind].
  destruct (Py.partition relative_doc_url "#"); reflexivity.
Qed.

Variables (existing : DocItem) (symbol_base_url : string).
Hypothesis Hexisting : doc_symbols cog !! symbol = Some existing.
Hypothesis Hhost : Py.index (Py.split (url existing) "/" (Some 3)) 2 = Ok symbol_base_url.

(** First branch: the new symbol takes the name with its group in front. *)
Lemma update_symbol_first_branch :
  bool_decide (group_name ∈ NO_OVERRIDE_GROUPS)
  || existsb (fun package_ => Py.contains package_ symbol_base_url) NO_OVERRIDE_PACKAGES
  = true ->
  update_symbol api_package_name base_url_ group_ symbol relative_doc_url cog
  = Ok (store_item
          (new_item (group_name ++ "." ++ symbol) api_package_name group_name base_url_
             relative_doc_url)
          (add_renamed (group_name ++ "." ++ symbol) cog)).
Proof.
  intros Hb; unfold update_symbol, new_item, store_item.
  rewrite Hslash, Hgroup; cbn [rbind]; rewrite Hexisting, Hhost; cbn [rbind].
  rewrite Hb; cbn [rbind].
  destruct (Py.partition relative_doc_url "#"); reflexivity.
Qed.

(** Second branch: the entry that holds the name moves to the name with its
    own group in front, and the new symbol takes the name. *)
Lemma update_symbol_second_branch :
  bool_decide (group_name ∈ NO_OVERRIDE_GROUPS)
  || existsb (fun package_ => Py.contains package_ symbol_base_url) NO_OVERRIDE_PACKAGES
  = false ->
  group existing ∈ NO_OVERRIDE_GROUPS ->
  group existing ++ "." ++ symbol ∉ renamed_symbols cog ->
  update_symbol api_package_name base_url_ group_ symbol relative_doc_url cog
  = Ok (store_item
          (new_item symbol api_package_name group_name base_url_ relative_doc_url)
          (add_renamed (group existing ++ "." ++ symbol)
             (set_symbol (group existing ++ "." ++ symbol) existing cog))).
Proof.
  intros Hb Hg Hr; unfold update_symbol, new_item, store_item.
  rewrite Hslash, Hgroup; cbn [rbind]; rewrite Hexisting, Hhost; cbn [rbind].
  rewrite Hb, (bool_decide_eq_true_2 _ Hg), (bool_decide_eq_false_2 _ Hr); cbn [rbind].
  destruct (Py.partition relative_doc_url "#"); reflexivity.
Qed.

End UpdateSymbol.

(** C5.  An entry whose name is taken, and whose group is in
    [NO_OVERRIDE_GROUPS] or whose name is held by an entry of a
    [NO_OVERRIDE_PACKAGES] site, is stored under ["{group}.{symbol}"]; that
    key is marked as renamed and the entry that held the name keeps it. *)
Theorem update_symbol_renames_new_symbol
    (api_package_name base_url_ group_ symbol relative_doc_url : string)
    (cog : DocCog) (group_name symbol_base_url : string) (existing : DocItem) :
  Py.contains "/" symbol = false ->
  Py.index (Py.split group_ ":" None) 1 = Ok group_name ->
  doc_symbols cog !! symbol = Some existing ->
  Py.index (Py.split (url existing) "/" (Some 3)) 2 = Ok symbol_base_url ->
  group_name ∈ NO_OVERRIDE_GROUPS
  \/ (exists package_, package_ ∈ NO_OVERRIDE_PACKAGES
                       /\ Py.contains package_ symbol_base_url = true) ->
  exists cog',
    update_symbol api_package_name base_url_ group_ symbol relative_doc_url cog = Ok cog'
    /\ doc_symbols cog' !! (group_name ++ "." ++ symbol)
       = Some (new_item (group_name ++ "." ++ symbol) api_package_name group_name
                 base_url_ relative_doc_url)
    /\ group_name ++ "." ++ symbol ∈ renamed_symbols cog'
    /\ doc_symbols cog' !! symbol = Some existing.
Proof.
  intros Hslash Hgroup Hex Hhost Hcond.
  eexists; split.
  - eapply update_symbol_first_branch; eauto.
    destruct Hcond as [Hg|(p & Hp & Hc)].
    + rewrite bool_decide_eq_true_2; [reflexivity | exact Hg].
    + apply orb_true_iff; right; apply existsb_exists.
      exists p; split; [now apply list_elem_of_In | exact Hc].
  - rewrite store_item_symbols, store_item_renamed.
    cbn [name new_item add_renamed doc_symbols renamed_symbols].
    split; [apply lookup_insert_eq|].
    split; [apply elem_of_union; left; now apply elem_of_singleton|].
    rewrite lookup_insert_ne; [exact Hex | apply prefixed_ne].
Qed.

(** The python documentation holds [print]; a [std:label] of the same name
    from another package goes to [label.print]. *)
Lemma update_symbol_renames_new_symbol_witness :
  let existing :=
    new_item "print" "python" "function" "https://docs.python.org/3/"
      "library/functions.html#print" in
  let cog := store_item existing new_cog in
  exists cog',
    update_symbol "other" "https://other.example/doc/" "std:label" "print"
      "index.html#print" cog = Ok cog'
    /\ doc_symbols cog' !! "label.print"
       = Some (new_item "label.print" "other" "label" "https://other.example/doc/"
                 "index.html#print")
    /\ "label.print" ∈ renamed_symbols cog'
    /\ doc_symbols cog' !! "print" = Some existing.
Proof.
  intros existing cog.
  apply (update_symbol_renames_new_symbol "other" "https://other.example/doc/"
           "std:label" "print" "index.html#print" cog "label" "docs.python.org" existing).
  - reflexivity.
  - reflexivity.
  - vm_compute; reflexivity.
  - reflexivity.
  - left; apply (bool_decide_unpack _); vm_compute; reflexivity.
Defined.

(** C6.  Two sources define the same symbol, the first in a group of
    [NO_OVERRIDE_GROUPS], the second not, and the first is not on a
    [NO_OVERRIDE_PACKAGES] site.  Ingested in that order into an index that
    has neither the name nor its renamed form, they leave both entries in
    the table: the first under ["{group}.{symbol}"], the second under the
    name. *)
Theorem update_single_keeps_both_entries
    (package1 base_url1 group1 relative_url1 : string)
    (package2 base_url2 group2 relative_url2 : string)
    (symbol group_name1 group_name2 symbol_base_url : string)
    (project1 version1 display1 project2 version2 display2 : string)
    (cog0 : DocCog) :
  let item1 := new_item symbol package1 group_name1 base_url1 relative_url1 in
  let item2 := new_item symbol package2 group_name2 base_url2 relative_url2 in
  doc_symbols cog0 !! symbol = None ->
  group_name1 ++ "." ++ symbol ∉ renamed_symbols cog0 ->
  Py.contains "/" symbol = false ->
  Py.index (Py.split group1 ":" None) 1 = Ok group_name1 ->
  Py.index (Py.split group2 ":" None) 1 = Ok group_name2 ->
  group_name1 ∈ NO_OVERRIDE_GROUPS ->
  group_name2 ∉ NO_OVERRIDE_GROUPS ->
  Py.index (Py.split (url item1) "/" (Some 3)) 2 = Ok symbol_base_url ->
  (forall package_, package_ ∈ NO_OVERRIDE_PACKAGES ->
                    Py.contains package_ symbol_base_url = false) ->
  exists cog1 cog2,
    update_single package1 base_url1
      (Some [(group1, [(symbol, (project1, version1, relative_url1, display1))])]) cog0
      = Done cog1
    /\ update_single package2 base_url2
         (Some [(group2, [(symbol, (project2, version2, relative_url2, display2))])]) cog1
       = Done cog2
    /\ doc_symbols cog2 !! (group_name1 ++ "." ++ symbol) = Some item1
    /\ doc_symbols cog2 !! symbol = Some item2
    /\ group_name1 ++ "." ++ symbol <> symbol
    /\ item1 <> item2
    /\ group_name1 ++ "." ++ symbol ∈ renamed_symbols cog2.
Proof.
  intros item1 item2 Hfree Hrenamed Hslash Hg1 Hg2 Hin1 Hin2 Hhost Hpkg.
  set (cog1 := store_item item1 (set_base_url package1 base_url1 cog0)).
  set (renamed := group_name1 ++ "." ++ symbol).
  set (cog2 := store_item item2
                 (add_renamed renamed
                    (set_symbol renamed item1 (set_base_url package2 base_url2 cog1)))).
  assert (Hex : doc_symbols (set_base_url package2 base_url2 cog1) !! symbol = Some item1).
  { cbn [set_base_url doc_symbols]; subst cog1; rewrite store_item_symbols.
    apply lookup_insert_eq. }
  assert (Hb : bool_decide (group_name2 ∈ NO_OVERRIDE_GROUPS)
               || existsb (fun package_ => Py.contains package_ symbol_base_url)
                    NO_OVERRIDE_PACKAGES = false).
  { rewrite (bool_decide_eq_false_2 _ Hin2); cbn [orb].
    apply not_true_is_false; intros (p & Hp & Hc)%existsb_exists.
    apply list_elem_of_In in Hp; rewrite (Hpkg p Hp) in Hc; discriminate. }
  exists cog1, cog2; split; [|split].
  - unfold update_single; cbn [entries flat_map map app for_each].
    now rewrite (update_symbol_free _ _ _ _ _ _ group_name1 Hslash Hg1) by exact Hfree.
  - unfold update_single; cbn [entries flat_map map app for_each].
    rewrite (update_symbol_second_branch _ _ _ _ _ _ group_name2 Hslash Hg2 item1
               symbol_base_url Hex Hhost Hb); [reflexivity | exact Hin1 |].
    subst cog1; cbn [set_base_url renamed_symbols]; rewrite store_item_renamed.
    exact Hrenamed.
  - subst cog2; rewrite store_item_symbols, store_item_renamed.
    cbn [name new_item item1 item2 group add_renamed set_symbol doc_symbols renamed_symbols].
    split; [|split; [|split; [|split]]].
    + rewrite lookup_insert_ne by (apply not_eq_sym, prefixed_ne).
      apply lookup_insert_eq.
    + apply lookup_insert_eq.
    + apply prefixed_ne.
    + intros Heq; apply (f_equal group) in Heq; cbn in Heq; congruence.
    + apply elem_of_union; left; now apply elem_of_singleton.
Qed.

(** Two sources that define [foo], a label and then a class. *)
Lemma update_single_keeps_both_entries_witness :
  exists cog1 cog2,
    update_single "one" "https://docs.one.example/"
      (Some [("std:label", [("foo", ("One", "1.0", "guide.html#foo", "-"))])]) new_cog
      = Done cog1
    /\ update_single "two" "https://docs.two.example/"
         (Some [("py:class", [("foo", ("Two", "2.0", "api.html#foo", "-"))])]) cog1
       = Done cog2
    /\ doc_symbols cog2 !! "label.foo"
       = Some (new_item "foo" "one" "label" "https://docs.one.example/" "guide.html#foo")
    /\ doc_symbols cog2 !! "foo"
       = Some (new_item "foo" "two" "class" "https://docs.two.example/" "api.html#foo")
    /\ "label.foo" <> "foo"
    /\ new_item "foo" "one" "label" "https://docs.one.example/" "guide.html#foo"
       <> new_item "foo" "two" "class" "https://docs.two.example/" "api.html#foo"
    /\ "label.foo" ∈ renamed_symbols cog2.
Proof.
  apply (update_single_keeps_both_entries
           "one" "https://docs.one.example/" "std:label" "guide.html#foo"
           "two" "https://docs.two.example/" "py:class" "api.html#foo"
           "foo" "label" "class" "docs.one.example"
           "One" "1.0" "-" "Two" "2.0" "-" new_cog).
  - reflexivity.
  - apply not_elem_of_empty.
  - reflexivity.
  - reflexivity.
  - reflexivity.
  - apply (bool_decide_unpack _); vm_compute; reflexivity.
  - apply (bool_decide_unpack _); vm_compute; reflexivity.
  - reflexivity.
  - intros p Hp; apply list_elem_of_singleton in Hp; subst p; reflexivity.
Defined.

(** ** Ingestion in doc.py *)

(** The first branch of doc.py: the new symbol goes under the name with its
    group in front, and that name is not marked as renamed. *)
Lemma doc_py_first_branch_does_not_mark
    (api_package_name base_url_ group_ symbol relative_doc_url : string)
    (doc : DocPy.Doc) (group_name symbol_base_url : string) (existing : DocPy.DocItem) :
  Py.contains "/" symbol = false ->
  Py.index (Py.split group_ ":" None) 1 = Ok group_name ->
  DocPy.doc_symbols doc !! symbol = Some existing ->
  Py.index (Py.split (DocPy.url existing) "/" (Some 3)) 2 = Ok symbol_base_url ->
  bool_decide (group_name ∈ NO_OVERRIDE_GROUPS)
  || existsb (fun package_ => Py.contains package_ symbol_base_url) NO_OVERRIDE_PACKAGES
  = true ->
  group_name ++ "." ++ symbol ∉ DocPy.renamed_symbols doc ->
  exists doc',
    DocPy.update_symbol api_package_name base_url_ group_ symbol relative_doc_url doc
    = Ok doc'
    /\ DocPy.doc_symbols doc' !! (group_name ++ "." ++ symbol)
       = Some {| DocPy.package := api_package_name;
                 DocPy.url := base_url_ ++ relative_doc_url;
                 DocPy.group := group_name |}
    /\ DocPy.doc_symbols doc' !! symbol = Some existing
    /\ DocPy.renamed_symbols doc' = DocPy.renamed_symbols doc.
Proof.
  intros Hslash Hgroup Hex Hhost Hb Hr; unfold DocPy.update_symbol.
  rewrite Hslash, Hgroup; cbn [rbind]; rewrite Hex, Hhost; cbn [rbind].
  rewrite Hb, (bool_decide_eq_false_2 _ Hr); cbn [rbind].
  eexists; split; [reflexivity|]; cbn [DocPy.set_symbol DocPy.doc_symbols DocPy.renamed_symbols].
  split; [apply lookup_insert_eq|].
  split; [|reflexivity].
  rewrite lookup_insert_ne; [exact Hex | apply prefixed_ne].
Qed.

Example doc_py_label_is_not_marked :
  let existing :=
    {| DocPy.package := "python";
       DocPy.url := "https://docs.python.org/3/library/functions.html#print";
       DocPy.group := "function" |} in
  exists doc',
    DocPy.update_symbol "other" "https://other.example/doc/" "std:label" "print"
      "index.html#print" (DocPy.set_symbol "print" existing DocPy.new_doc) = Ok doc'
    /\ is_Some (DocPy.doc_symbols doc' !! "label.print")
    /\ DocPy.renamed_symbols doc' = ∅.
Proof.
  intros existing.
  destruct (doc_py_first_branch_does_not_mark "other" "https://other.example/doc/"
              "std:label" "print" "index.html#print"
              (DocPy.set_symbol "print" existing DocPy.new_doc)
              "label" "docs.python.org" existing)
    as (doc' & Hrun & Hnew & _ & Hren);
    try reflexivity; [apply not_elem_of_empty|].
  exists doc'; split; [exact Hrun|]; split; [eexists; exact Hnew | exact Hren].
Qed.

(** ** Extraction *)

Section ExtractionFacts.
Context `{BeautifulSoup} `{Collaborators}.

(** Without an element for the anchor, [get_symbol_markdown] raises: for
    the groups parsed as general pages in [_get_general_description], for
    the others at [symbol_heading.name]. *)
Lemma get_symbol_markdown_no_anchor (soup : PageElement) (symbol_data : DocItem) :
  find_id soup (symbol_id symbol_data) = None ->
  get_symbol_markdown soup symbol_data = Raise AttributeError.
Proof.
  intros Hfind; unfold get_symbol_markdown; rewrite Hfind.
  destruct (bool_decide _); reflexivity.
Qed.

End ExtractionFacts.

(** C2 (defect of the code).  The inventory lists [c] with the anchor [c],
    and the page has no element with that id.  [get_symbol_markdown] of
    parsing.py then raises [AttributeError], where [Doc.get_symbol_html] of
    doc.py returns [None].  In the cog the exception ends the parse task of
    the page, and the caller stays suspended: it cannot be woken. *)
Theorem get_symbol_markdown_missing_anchor :
  let soup := parse_html example_page in
  let key := example_base_url ++ "api.html" in
  find_id soup "c" = None
  /\ get_symbol_markdown soup (example_item "c") = Raise AttributeError
  /\ exists w,
       exec [Refresh; Update "w" example_base_url (Some example_inventory_c);
             Request "c"; Response 0 soup; Parse 0] new_world = Some w
       /\ doc_symbols (cog w) !! "c" = Some (example_item "c")
       /\ parsers w = [Died key AttributeError]
       /\ callers w = [Waiting "c" (example_item "c") 0]
       /\ step (Wake 0) w = None.
Proof.
  split; [vm_compute; reflexivity|].
  split; [vm_compute; reflexivity|].
  eexists; split; [vm_compute; reflexivity|].
  vm_compute; repeat split.
Qed.

(** ** The event loop *)

(** C1 (defect of the code).  [started] is tested before the page is
    requested and never set.  Two requests for two symbols of one page
    therefore request the page twice, whether the second comes while the
    first still waits for the page or after the first was served; in both
    runs one parse task is created. *)
Theorem two_requests_one_page_two_fetches :
  let soup := parse_html example_page in
  let key := example_base_url ++ "api.html" in
  let ingest := [Refresh; Update "w" example_base_url (Some example_inventory)] in
  page_key (example_item "a") = key
  /\ page_key (example_item "b") = key
  /\ (exists w,
        exec (ingest ++ [Request "a"; Request "b"; Response 0 soup; Response 1 soup])%list
          new_world = Some w
        /\ page_requests w = [url (example_item "a"); url (example_item "b")]
        /\ parsers w = [Parsing key (Some soup) None])
  /\ (exists w,
        exec (ingest ++ [Request "a"; Response 0 soup; Parse 0; Wake 0; Request "b"])%list
          new_world = Some w
        /\ page_requests w = [url (example_item "a"); url (example_item "b")]
        /\ parsers w = [Parsing key (Some soup) (Some (example_item "a"))]).
Proof.
  split; [reflexivity|]. split; [reflexivity|].
  split; eexists; (split; [vm_compute; reflexivity|]); vm_compute; split; reflexivity.
Qed.

(** C7 (defect of the code).  [refresh_inventory] clears the table, the
    renamed set and [async_cache.cache], and leaves [self.objects] and
    [self.urls] as they are.  A symbol that was served before the refresh
    is served again from [self.objects] after it: the page is not requested
    again and the embed is the one rendered from the old page. *)
Theorem refresh_keeps_rendered_results :
  let soup := parse_html example_page in
  let ingest := [Refresh; Update "w" example_base_url (Some example_inventory)] in
  let served := (ingest ++ [Request "a"; Response 0 soup; Parse 0; Wake 0])%list in
  exists w1 w2 embed,
    exec served new_world = Some w1
    /\ callers w1 = [Returned (Some embed)]
    /\ page_requests w1 = [url (example_item "a")]
    /\ exec (ingest ++ [Request "a"])%list w1 = Some w2
    /\ callers w2 = [Returned (Some embed); Returned (Some embed)]
    /\ page_requests w2 = [url (example_item "a")]
    /\ Some (e_description embed) = result_to_option (get_symbol_markdown soup (example_item "a"))
    /\ Some (e_description embed)
       <> result_to_option
            (get_symbol_markdown (parse_html example_page_rebuilt) (example_item "a")).
Proof.
  eexists; eexists; eexists.
  split; [vm_compute; reflexivity|].
  split; [reflexivity|].
  split; [reflexivity|].
  split; [vm_compute; reflexivity|].
  split; [reflexivity|].
  split; [reflexivity|].
  split; [vm_compute; reflexivity|].
  vm_compute; intros Heq; discriminate Heq.
Qed.

(** ** What the turns change *)

Lemma urls_get_set (key key' : string) (q : TODO_PLACEHOLDER) (c : DocCog) :
  urls_get key (set_urls key' q c) = if decide (key = key') then q else urls_get key c.
Proof.
  unfold urls_get; cbn [set_urls urls].
  destruct (decide (key = key')) as [->|Hne].
  - now rewrite lookup_insert_eq.
  - now rewrite lookup_insert_ne.
Qed.

Lemma urls_get_touch (key key' : string) (c : DocCog) :
  urls_get key (set_urls key' (urls_get key' c) c) = urls_get key c.
Proof. rewrite urls_get_set; destruct (decide (key = key')) as [->|]; reflexivity. Qed.


Lemma list_pop_Some (l rest : list DocItem) (x : DocItem) :
  list_pop l = Some (x, rest) -> l = (rest ++ [x])%list.
Proof.
  unfold list_pop; destruct (rev l) as [|y r] eqn:E; [discriminate|].
  intros [= <- <-]; rewrite <- (rev_involutive l), E; reflexivity.
Qed.

Lemma list_pop_None (l : list DocItem) : list_pop l = None -> l = [].
Proof.
  unfold list_pop; destruct (rev l) as [|y r] eqn:E; [|discriminate].
  intros _; rewrite <- (rev_involutive l), E; reflexivity.
Qed.

Lemma events_set_nonempty (item : DocItem) (event : nat) (events : list (DocItem * nat)) :
  events_set item event events <> [].
Proof. destruct events as [|[i e] rest]; simpl; [|destruct (decide _)]; discriminate. Qed.

Lemma extends_refl (c : DocCog) : extends c c.
Proof. split; [reflexivity|]; intros key; repeat split; exists []; now rewrite app_nil_r. Qed.

Lemma extends_trans (c1 c2 c3 : DocCog) : extends c1 c2 -> extends c2 c3 -> extends c1 c3.
Proof.
  intros [Ho1 Hq1] [Ho2 Hq2]; split; [congruence|]; intros key.
  destruct (Hq1 key) as (Hs1 & He1 & a1 & Ha1), (Hq2 key) as (Hs2 & He2 & a2 & Ha2).
  repeat split; [congruence | congruence |].
  exists (a1 ++ a2)%list; rewrite Ha2, Ha1, app_assoc; reflexivity.
Qed.

(** Two cogs with the same pages and results. *)
Lemma extends_same (c c' : DocCog) :
  objects c' = objects c -> (forall key, urls_get key c' = urls_get key c) -> extends c c'.
Proof.
  intros Ho Hu; split; [exact Ho|]; intros key; rewrite Hu.
  repeat split; exists []; now rewrite app_nil_r.
Qed.

Lemma store_item_extends (item : DocItem) (c : DocCog) : extends c (store_item item c).
Proof.
  split; [reflexivity|]; intros key; unfold store_item.
  rewrite urls_get_set; destruct (decide (key = page_key item)) as [->|Hne].
  - repeat split; exists [item]; reflexivity.
  - repeat split; exists []; now rewrite app_nil_r.
Qed.

Lemma update_symbol_extends
    (api_package_name base_url_ group_ symbol relative_doc_url : string) (c c' : DocCog) :
  update_symbol api_package_name base_url_ group_ symbol relative_doc_url c = Ok c' ->
  extends c c'.
Proof.
  unfold update_symbol.
  destruct (Py.contains "/" symbol); [intros [= <-]; apply extends_refl|].
  destruct (Py.index (Py.split group_ ":" None) 1) as [group_name|]; cbn [rbind];
    [|discriminate].
  assert (Hstore : forall sym c0,
    extends c c0 ->
    (let '(symbol0, cog0) := (sym, c0) in
     let '(relative_url_path_, symbol_id_) := Py.partition relative_doc_url "#" in
     let item :=
       {| name := symbol0; package := api_package_name; group := group_name;
          base_url := base_url_; relative_url_path := relative_url_path_;
          symbol_id := symbol_id_ |} in
     let cog1 := set_symbol symbol0 item cog0 in
     let key := base_url_ ++ relative_url_path_ in
     Ok (set_urls key (add_item item (urls_get key cog1)) cog1)) = Ok c' ->
    extends c c').
  { intros sym c0 Hc0; cbn beta iota.
    destruct (Py.partition relative_doc_url "#") as [p i]; intros [= <-].
    eapply extends_trans; [exact Hc0|].
    apply (store_item_extends
             {| name := sym; package := api_package_name; group := group_name;
                base_url := base_url_; relative_url_path := p; symbol_id := i |}). }
  destruct (doc_symbols c !! symbol) as [existing|]; cbn [rbind].
  - destruct (Py.index (Py.split (url existing) "/" (Some 3)) 2); cbn [rbind];
      [|discriminate].
    repeat (match goal with |- context [if ?b then _ else _] => destruct b end;
            cbn [rbind]);
      apply Hstore; apply extends_same; reflexivity.
  - apply Hstore, extends_refl.
Qed.

Lemma for_each_extends {A : Type} (body : A -> DocCog -> result DocCog)
    (items : list A) (c : DocCog) :
  (forall x c0 c1, body x c0 = Ok c1 -> extends c0 c1) ->
  extends c (final_cog (for_each body items c)).
Proof.
  intros Hbody; revert c; induction items as [|x rest IH]; intros c; simpl.
  - apply extends_refl.
  - destruct (body x c) as [c1|e] eqn:Hb; simpl; [|apply extends_refl].
    eapply extends_trans; [eapply Hbody; exact Hb | apply IH].
Qed.

Lemma update_single_extends (api_package_name base_url_ : string)
    (fetched : option inventory) (c : DocCog) :
  extends c (final_cog (update_single api_package_name base_url_ fetched c)).
Proof.
  unfold update_single.
  assert (Hb : extends c (set_base_url api_package_name base_url_ c))
    by (apply extends_same; reflexivity).
  destruct fetched as [[|g rest]|]; [exact Hb | | exact Hb].
  eapply extends_trans; [exact Hb|].
  apply for_each_extends; intros [[group_ symbol] relative_doc_url] c0 c1.
  apply update_symbol_extends.
Qed.

Section ChangeFacts.
Context `{BeautifulSoup} `{Collaborators}.

Lemma change_same (w w' : World) :
  cog w' = cog w -> parsers w' = parsers w -> change w w'.
Proof. intros Hc Hp; apply change_index; [rewrite Hc; apply extends_refl | exact Hp]. Qed.

Lemma change_touch (key : string) (w w' : World) :
  cog w' = set_urls key (urls_get key (cog w)) (cog w) ->
  parsers w' = parsers w -> change w w'.
Proof.
  intros Hc Hp; apply change_index; [|exact Hp].
  rewrite Hc; apply extends_same; [reflexivity|].
  intros key'; apply urls_get_touch.
Qed.

Lemma return_embed_change (symbol : string) (symbol_data : DocItem) (w w' : World)
    (embed : Embed) (c : DocCog) :
  return_embed symbol symbol_data (cog w) = Ok (embed, c) ->
  cog w' = c -> parsers w' = parsers w -> change w w'.
Proof.
  unfold return_embed.
  destruct (objects (cog w) !! name symbol_data) as [old|] eqn:Hold; [|discriminate].
  intros [= <- <-] Hc Hp.
  match type of Hc with
  | _ = set_object _ ?e _ => apply (change_footer w w' (name symbol_data) old e)
  end; try reflexivity; try assumption; rewrite Hc; reflexivity.
Qed.

Lemma enter_wait_change (symbol : string) (symbol_data : DocItem)
    (soup : option PageElement) (w w1 w' : World) (task : caller) :
  enter_wait symbol symbol_data soup w = (task, w1) ->
  cog w' = cog w1 -> parsers w' = parsers w1 -> change w w'.
Proof.
  unfold enter_wait, wait_for_item, put_to_front.
  destruct (list_remove symbol_data (queue (urls_get (page_key symbol_data) (cog w))))
    as [rest|e] eqn:Hrm; cbn [rbind].
  - intros [= <- <-]; cbn [cog parsers]; intros Hc Hp.
    eapply (change_wait w w' (page_key symbol_data) symbol_data soup rest (events_created w)).
    + exact Hrm.
    + rewrite Hc, urls_get_set, decide_True by reflexivity; reflexivity.
    + intros key' Hne; rewrite Hc, urls_get_set, decide_False by exact Hne; reflexivity.
    + rewrite Hc; reflexivity.
    + exact Hp.
  - intros [= <- <-]; apply change_same.
Qed.

Lemma parse_items_step_change (key : string) (soup : option PageElement)
    (item : option DocItem) (w w1 w' : World) (task : nat) (p : parser) :
  parsers w !! task = Some (Parsing key soup item) ->
  parse_items_step key soup item w = (p, w1) ->
  cog w' = cog w1 -> parsers w' = <[task := p]> (parsers w1) -> change w w'.
Proof.
  intros Htask; unfold parse_items_step.
  destruct (list_pop (queue (urls_get key (cog w)))) as [[x rest]|] eqn:Hpop.
  - apply list_pop_Some in Hpop.
    fold (render soup x).
    destruct (render soup x) as [markdown|e] eqn:Hr.
    + intros [= <- <-]; cbn [cog parsers]; intros Hc Hp.
      eapply (change_parse_item w w' task key soup item x rest); eauto.
      * rewrite Hc; cbn [set_object]; unfold urls_get at 1; cbn [urls set_urls set_object].
        now rewrite lookup_insert_eq.
      * intros key' Hne; rewrite Hc; unfold urls_get at 1; cbn [urls set_urls set_object].
        now rewrite lookup_insert_ne by (apply not_eq_sym, Hne).
      * left; exists markdown; rewrite Hc; split; [exact Hr|split; [reflexivity|exact Hp]].
    + intros [= <- <-]; cbn [cog parsers with_cog]; intros Hc Hp.
      eapply (change_parse_item w w' task key soup item x rest); eauto.
      * rewrite Hc, urls_get_set, decide_True by reflexivity; reflexivity.
      * intros key' Hne; rewrite Hc, urls_get_set, decide_False by exact Hne; reflexivity.
      * right; exists e; rewrite Hc; split; [exact Hr|split; [reflexivity|exact Hp]].
  - apply list_pop_None in Hpop.
    intros [= <- <-] Hc Hp.
    apply (change_parse_end w w' task key soup item
             (match item with
              | Some _ => Finished key
              | None => Died key UnboundLocalError
              end)).
    + exact Htask.
    + exact Hpop.
    + destruct item; [left | right]; reflexivity.
    + intros key'; now rewrite Hc.
    + now rewrite Hc.
    + exact Hp.
Qed.

(** One turn of the loop is made of at most two changes. *)
Lemma step_change (ev : event) (w w' : World) :
  step ev w = Some w' -> rtc change w w'.
Proof.
  destruct ev as [|api base fetched|symbol|task soup|task|task]; cbn [step].
  - intros [= <-]; apply rtc_once, change_index; [|reflexivity].
    apply extends_same; reflexivity.
  - intros [= <-]; apply rtc_once, change_index; [|reflexivity].
    apply update_single_extends.
  - destruct (start_request symbol w) as [task w1] eqn:Hstart; intros [= <-].
    revert Hstart; unfold start_request.
    destruct (doc_symbols (cog w) !! symbol) as [symbol_data|];
      [|intros [= <- <-]; apply rtc_once, change_same; reflexivity].
    destruct (bool_decide _).
    + destruct (return_embed symbol symbol_data (cog w)) as [[embed c]|e] eqn:Hret;
        intros [= <- <-]; apply rtc_once.
      * eapply return_embed_change; eauto.
      * apply change_same; reflexivity.
    + set (w0 := with_cog _ w).
      assert (Hw0 : change w w0) by (eapply change_touch; reflexivity).
      destruct (negb _).
      * intros [= <- <-]; apply rtc_once; eapply change_touch; reflexivity.
      * intros Hwait; eapply rtc_l; [exact Hw0|].
        apply rtc_once; eapply enter_wait_change; eauto.
  - destruct (callers w !! task) as [[symbol symbol_data| | |]|]; try discriminate.
    destruct (enter_wait symbol symbol_data (Some soup) w) as [task' w1] eqn:Hwait.
    intros [= <-]; apply rtc_once; eapply enter_wait_change; eauto.
  - destruct (parsers w !! task) as [[key soup item| |]|] eqn:Htask; try discriminate.
    destruct (parse_items_step key soup item w) as [p w1] eqn:Hparse.
    intros [= <-]; apply rtc_once; eapply parse_items_step_change; eauto.
  - destruct (callers w !! task) as [[| symbol symbol_data item_event | |]|];
      try discriminate.
    destruct (bool_decide _); [|discriminate].
    destruct (return_embed symbol symbol_data (cog w)) as [[embed c]|e] eqn:Hret;
      intros [= <-]; apply rtc_once.
    + eapply return_embed_change; eauto.
    + apply change_same; reflexivity.
Qed.

Lemma exec_change (evs : list event) (w w' : World) :
  exec evs w = Some w' -> rtc change w w'.
Proof.
  revert w; induction evs as [|ev rest IH]; intros w; simpl.
  - intros [= <-]; apply rtc_refl.
  - destruct (step ev w) as [w1|] eqn:Hstep; [|discriminate].
    intros Hrest; eapply rtc_trans; [eapply step_change; exact Hstep | now apply IH].
Qed.

End ChangeFacts.

Section Invariants.
Context `{BeautifulSoup} `{Collaborators}.

Lemma parser_keys_insert (ps : list parser) (task : nat) (p p' : parser) :
  ps !! task = Some p -> parser_key p' = parser_key p ->
  map parser_key (<[task := p']> ps) = map parser_key ps.
Proof.
  intros Htask Hkey.
  change (map parser_key) with (fmap (M := list) parser_key).
  rewrite list_fmap_insert, Hkey.
  apply list_insert_id; rewrite list_lookup_fmap, Htask; reflexivity.
Qed.

Lemma never_started_change (w w' : World) :
  change w w' -> never_started w -> never_started w'.
Proof.
  intros Hch Hw key; specialize (Hw key).
  destruct Hch as [[_ Hq] _ | ? ? ? _ _ _ _ _ Hu _ | key0 ? ? ? ? _ Hk Ho _ _
                   | ? ? ? ? ? _ _ _ Hu _ _ | ? key0 ? ? ? ? _ _ Hk Ho _].
  - destruct (Hq key) as (-> & _); exact Hw.
  - now rewrite Hu.
  - destruct (decide (key = key0)) as [->|Hne]; [rewrite Hk | rewrite Ho by exact Hne];
      exact Hw.
  - now rewrite Hu.
  - destruct (decide (key = key0)) as [->|Hne]; [rewrite Hk | rewrite Ho by exact Hne];
      exact Hw.
Qed.

Lemma one_parser_per_page_change (w w' : World) :
  change w w' -> one_parser_per_page w -> one_parser_per_page w'.
Proof.
  intros Hch [Hnone Hdup]; unfold one_parser_per_page.
  destruct Hch as [[_ Hq] Hp | ? ? ? _ _ _ _ _ Hu Hp | key0 item soup rest ev _ Hk Ho _ Hp
                   | task key0 soup item p Htask _ Hend Hu _ Hp
                   | task key0 soup last item rest Htask _ Hk Ho Hres].
  - rewrite Hp; split; [|exact Hdup].
    intros key Hev; apply Hnone.
    destruct (Hq key) as (_ & <- & _); exact Hev.
  - rewrite Hp; split; [|exact Hdup].
    intros key Hev; apply Hnone; now rewrite <- Hu.
  - assert (Hkeys : forall key, item_events (urls_get key (cog w')) = [] ->
                                key <> key0 /\ item_events (urls_get key (cog w)) = []).
    { intros key Hev; destruct (decide (key = key0)) as [->|Hne].
      - rewrite Hk in Hev; cbn [item_events] in Hev.
        now apply events_set_nonempty in Hev.
      - split; [exact Hne|]; now rewrite <- Ho. }
    rewrite Hp; case_bool_decide as Hempty.
    + rewrite map_app; cbn [map parser_key]; split.
      * intros key Hev; destruct (Hkeys key Hev) as [Hne Hev'].
        rewrite elem_of_app, list_elem_of_singleton.
        intros [Hin|Heq]; [now apply (Hnone key) | contradiction].
      * apply NoDup_app; repeat split; [exact Hdup | | apply NoDup_singleton].
        intros x Hx ->%list_elem_of_singleton; now apply (Hnone key0).
    + split; [|exact Hdup].
      intros key Hev; destruct (Hkeys key Hev) as [_ Hev']; now apply Hnone.
  - rewrite Hp, (parser_keys_insert _ _ _ _ Htask)
      by (destruct Hend as [->| ->]; reflexivity).
    split; [|exact Hdup].
    intros key Hev; apply Hnone; now rewrite <- Hu.
  - assert (Hp : map parser_key (parsers w') = map parser_key (parsers w)).
    { destruct Hres as [(m & _ & _ & ->)|(e & _ & _ & ->)];
        now rewrite (parser_keys_insert _ _ _ _ Htask). }
    rewrite Hp; split; [|exact Hdup].
    intros key Hev; apply Hnone.
    destruct (decide (key = key0)) as [->|Hne];
      [now rewrite Hk in Hev | now rewrite <- Ho].
Qed.




(** An invariant of the changes holds after any run that starts where it
    holds. *)
Lemma exec_invariant (P : World -> Prop) (evs : list event) (w w' : World) :
  (forall w1 w2, change w1 w2 -> P w1 -> P w2) ->
  exec evs w = Some w' -> P w -> P w'.
Proof.
  intros Hstep Hexec; apply exec_change in Hexec.
  induction Hexec as [|w1 w2 w3 Hch _ IH]; [auto|].
  intros Hw; apply IH; eapply Hstep; eauto.
Qed.

Lemma never_started_new : never_started new_world.
Proof. intros key; reflexivity. Qed.

Lemma one_parser_per_page_new : one_parser_per_page new_world.
Proof. split; [intros key _; apply not_elem_of_nil | apply NoDup_nil_2]. Qed.


(** [started] stays [False]: no statement of the cog sets it. *)
Lemma started_is_never_set (evs : list event) (w : World) :
  exec evs new_world = Some w -> never_started w.
Proof.
  intros Hexec; eapply (exec_invariant never_started); eauto using never_started_change.
  apply never_started_new.
Qed.

(** At most one parse task is created for a page. *)
Lemma one_parse_task_per_page (evs : list event) (w : World) (key : string) :
  exec evs new_world = Some w ->
  length (List.filter (fun p => String.eqb (parser_key p) key) (parsers w)) <= 1.
Proof.
  intros Hexec.
  assert (Hinv : one_parser_per_page w).
  { eapply (exec_invariant one_parser_per_page); eauto using one_parser_per_page_change.
    apply one_parser_per_page_new. }
  destruct Hinv as [_ Hdup]; revert Hdup; generalize (parsers w) as ps.
  induction ps as [|p ps IH]; simpl; [lia|].
  intros [Hp Hps]%NoDup_cons; specialize (IH Hps).
  destruct (String.eqb_spec (parser_key p) key) as [<-|Hne]; simpl; [|exact IH].
  assert (Hnone : List.filter (fun p0 => String.eqb (parser_key p0) (parser_key p)) ps = []).
  { clear IH Hps; induction ps as [|q ps IH]; simpl; [reflexivity|].
    destruct (String.eqb_spec (parser_key q) (parser_key p)) as [Heq|Hne].
    - exfalso; apply Hp; simpl; rewrite Heq; left.
    - apply IH; intros Hin; apply Hp; simpl; now right. }
  rewrite Hnone; simpl; lia.
Qed.

End Invariants.

Section ParseLoop.
Context `{BeautifulSoup} `{Collaborators}.




End ParseLoop.


(** ** Entries and queues *)

(** Every entry that [update_symbol] reads from the inventory goes into the
    table under its name and into the queue of its page. *)
Lemma update_symbol_queues_entry
    (api_package_name base_url_ group_ symbol relative_doc_url : string) (c c' : DocCog) :
  Py.contains "/" symbol = false ->
  update_symbol api_package_name base_url_ group_ symbol relative_doc_url c = Ok c' ->
  exists item,
    doc_symbols c' !! name item = Some item
    /\ item ∈ queue (urls_get (page_key item) c')
    /\ package item = api_package_name
    /\ base_url item = base_url_
    /\ page_key item = base_url_ ++ fst (Py.partition relative_doc_url "#").
Proof.
  intros Hslash; unfold update_symbol; rewrite Hslash.
  destruct (Py.index (Py.split group_ ":" None) 1) as [group_name|]; cbn [rbind];
    [|discriminate].
  assert (Hstore : forall sym c0,
    (let '(symbol0, cog0) := (sym, c0) in
     let '(relative_url_path_, symbol_id_) := Py.partition relative_doc_url "#" in
     let item :=
       {| name := symbol0; package := api_package_name; group := group_name;
          base_url := base_url_; relative_url_path := relative_url_path_;
          symbol_id := symbol_id_ |} in
     let cog1 := set_symbol symbol0 item cog0 in
     let key := base_url_ ++ relative_url_path_ in
     Ok (set_urls key (add_item item (urls_get key cog1)) cog1)) = Ok c' ->
    exists item,
      doc_symbols c' !! name item = Some item
      /\ item ∈ queue (urls_get (page_key item) c')
      /\ package item = api_package_name
      /\ base_url item = base_url_
      /\ page_key item = base_url_ ++ fst (Py.partition relative_doc_url "#")).
  { intros sym c0; cbn beta iota.
    destruct (Py.partition relative_doc_url "#") as [p i]; intros [= <-].
    exists {| name := sym; package := api_package_name; group := group_name;
              base_url := base_url_; relative_url_path := p; symbol_id := i |}.
    cbn [name package base_url fst]; unfold page_key; cbn [base_url relative_url_path].
    split; [cbn [doc_symbols set_urls set_symbol]; apply lookup_insert_eq|].
    split; [|auto].
    rewrite urls_get_set, decide_True by reflexivity.
    cbn [queue add_item]; apply elem_of_app; right; apply list_elem_of_singleton; reflexivity. }
  destruct (doc_symbols c !! symbol) as [existing|]; cbn [rbind].
  - destruct (Py.index (Py.split (url existing) "/" (Some 3)) 2); cbn [rbind];
      [|discriminate].
    repeat (match goal with |- context [if ?b then _ else _] => destruct b end;
            cbn [rbind]);
      apply Hstore.
  - apply Hstore.
Qed.

(** ** The parse loop ends *)

Section ParseLoopEnds.
Context `{BeautifulSoup} `{Collaborators}.

Lemma list_pop_snoc (rest : list DocItem) (x : DocItem) :
  list_pop (rest ++ [x]) = Some (x, rest).
Proof. unfold list_pop; rewrite rev_unit, rev_involutive; reflexivity. Qed.

(** A result, once stored, stays. *)
Lemma result_stays_change (symbol_name : string) (w w' : World) :
  change w w' ->
  is_Some (objects (cog w) !! symbol_name) -> is_Some (objects (cog w') !! symbol_name).
Proof.
  intros Hch Hw.
  destruct Hch as [[Ho _] _ | n0 ? ? _ _ _ _ Ho _ _ | ? ? ? ? ? _ _ _ Ho _
                   | ? ? ? ? ? _ _ _ _ Ho _ | ? ? ? ? item ? _ _ _ _ Hres].
  - now rewrite Ho.
  - rewrite Ho; destruct (decide (symbol_name = n0)) as [->|Hne].
    + rewrite lookup_insert_eq; eauto.
    + now rewrite lookup_insert_ne by (apply not_eq_sym, Hne).
  - now rewrite Ho.
  - now rewrite Ho.
  - destruct Hres as [(m & _ & -> & _)|(e & _ & -> & _)]; [|exact Hw].
    destruct (decide (symbol_name = name item)) as [->|Hne].
    + rewrite lookup_insert_eq; eauto.
    + now rewrite lookup_insert_ne by (apply not_eq_sym, Hne).
Qed.

(** One turn of a parse task whose queue ends in an entry that renders. *)
Lemma parse_turn (task : nat) (key : string) (soup : option PageElement)
    (last : option DocItem) (w : World) (rest : list DocItem) (x : DocItem)
    (markdown : string) :
  parsers w !! task = Some (Parsing key soup last) ->
  queue_of key w = (rest ++ [x])%list ->
  render soup x = Ok markdown ->
  exists w',
    step (Parse task) w = Some w'
    /\ parsers w' !! task = Some (Parsing key soup (Some x))
    /\ queue_of key w' = rest
    /\ is_Some (objects (cog w') !! name x).
Proof.
  intros Htask Hqueue Hrender; cbn [step]; rewrite Htask.
  unfold parse_items_step; unfold queue_of in Hqueue; rewrite Hqueue, list_pop_snoc.
  fold (render soup x); rewrite Hrender.
  eexists; split; [reflexivity|]; cbn [parsers with_parsers cog].
  split; [apply list_lookup_insert_eq; eapply lookup_lt_Some; exact Htask|].
  split.
  - unfold queue_of, urls_get; cbn [cog with_parsers urls set_object set_urls].
    now rewrite lookup_insert_eq.
  - cbn [cog with_parsers objects set_object]; rewrite lookup_insert_eq; eauto.
Qed.

(** Left alone with entries that render, a parse task that has work, or has
    done some, takes one turn for each queued entry and ends in the next:
    the queue is then empty and every entry has a result. *)
Lemma parse_loop_completes (n : nat) (task : nat) (key : string)
    (soup : option PageElement) (last : option DocItem) (w : World) :
  parsers w !! task = Some (Parsing key soup last) ->
  length (queue_of key w) = n ->
  (forall x, x ∈ queue_of key w -> exists markdown, render soup x = Ok markdown) ->
  is_Some last \/ queue_of key w <> [] ->
  exists w',
    exec (replicate (S n) (Parse task)) w = Some w'
    /\ parsers w' !! task = Some (Finished key)
    /\ queue_of key w' = []
    /\ forall x, x ∈ queue_of key w -> is_Some (objects (cog w') !! name x).
Proof.
  revert last w; induction n as [|n IH]; intros last w Htask Hlen Hrender Hwork.
  - apply length_zero_iff_nil in Hlen.
    destruct Hwork as [[item ->]|Hne]; [|contradiction].
    exists (with_parsers (<[task := Finished key]> (parsers w)) w).
    cbn [replicate exec step]; rewrite Htask; unfold parse_items_step.
    unfold queue_of in Hlen; rewrite Hlen; cbn [list_pop rev].
    split; [reflexivity|]; cbn [parsers with_parsers].
    split; [apply list_lookup_insert_eq; eapply lookup_lt_Some; exact Htask|].
    split; [exact Hlen|].
    intros x Hx; unfold queue_of in Hx; rewrite Hlen in Hx.
    now apply not_elem_of_nil in Hx.
  - destruct (queue_of key w) as [|y q] eqn:Hq using rev_ind; [discriminate|].
    clear IHq; rewrite length_app in Hlen; cbn in Hlen.
    destruct (Hrender y) as [markdown Hy];
      [rewrite elem_of_app, list_elem_of_singleton; now right|].
    destruct (parse_turn _ _ _ _ _ _ _ _ Htask Hq Hy) as (w1 & Hstep & Htask1 & Hq1 & Hobj).
    destruct (IH (Some y) w1 Htask1) as (w' & Hexec & Hdone & Hempty & Hall).
    + rewrite Hq1; lia.
    + intros x Hx; apply Hrender; rewrite elem_of_app; left; now rewrite <- Hq1.
    + left; eauto.
    + exists w'; split; [|split; [exact Hdone|split; [exact Hempty|]]].
      * change (replicate (S (S n)) (Parse task))
          with (Parse task :: replicate (S n) (Parse task)).
        cbn [exec]; now rewrite Hstep.
      * intros x [Hx| ->%list_elem_of_singleton]%elem_of_app.
        -- apply Hall; now rewrite Hq1.
        -- eapply (exec_invariant (fun w0 => is_Some (objects (cog w0) !! name y)));
             eauto using result_stays_change.
Qed.

End ParseLoopEnds.

(** On the page of [a] and [b], one request for [a] starts the parse task;
    three turns of it render both entries and end it. *)
Example parse_loop_completes_example :
  let soup := parse_html example_page in
  let w := world_after [Refresh; Update "w" example_base_url (Some example_inventory);
                        Request "a"; Response 0 soup] in
  exists w',
    exec (replicate 3 (Parse 0)) w = Some w'
    /\ parsers w' !! 0 = Some (Finished (example_base_url ++ "api.html"))
    /\ is_Some (objects (cog w') !! "a")
    /\ is_Some (objects (cog w') !! "b").
Proof.
  intros soup w.
  destruct (@parse_loop_completes tree_soup plain_collaborators 2 0
              (example_base_url ++ "api.html") (Some soup) None w)
    as (w' & Hexec & Hdone & _ & Hall).
  - vm_compute; reflexivity.
  - vm_compute; reflexivity.
  - intros x Hx.
    assert (Hq : queue_of (example_base_url ++ "api.html") w
                 = [example_item "b"; example_item "a"]) by (vm_compute; reflexivity).
    rewrite Hq in Hx.
    apply elem_of_cons in Hx as [->|Hx]; [eexists; vm_compute; reflexivity|].
    apply list_elem_of_singleton in Hx as ->; eexists; vm_compute; reflexivity.
  - right; vm_compute; discriminate.
  - exists w'; split; [exact Hexec|]; split; [exact Hdone|].
    split; [apply (Hall (example_item "a")) | apply (Hall (example_item "b"))];
      apply (bool_decide_unpack _); vm_compute; reflexivity.
Qed.

(* ===================================================================== *)
(** * Part III.  Further properties of the code                           *)
(* ===================================================================== *)

(** ** [async_cache]: size, order, repeated calls *)

Section CacheMore.
Context {V : Type}.
Implicit Types (d : @ordered_dict V) (st : @cache_state V).

Lemma od_set_length d key v : length (od_set key v d) <= S (length d).
Proof.
  induction d as [|[k w] d IH]; simpl; [lia|].
  destruct (String.eqb k key); simpl; lia.
Qed.

Lemma od_set_new d key v :
  key ∉ map fst d -> od_set key v d = (d ++ [(key, v)])%list.
Proof.
  induction d as [|[k w] d IH]; simpl; [reflexivity|].
  intros Hn; destruct (String.eqb_spec k key) as [->|Hne].
  - exfalso; apply Hn; left.
  - f_equal; apply IH; intros Hin; apply Hn; now right.
Qed.

Lemma wrapper_size (max_size : Z) (arg_offset : nat)
    (function : list string -> option V) (args : list string) st v st' :
  (Z.of_nat (length (cache st)) <= max_size + 1)%Z ->
  wrapper max_size arg_offset function args st = Ok (v, st') ->
  (Z.of_nat (length (cache st')) <= max_size + 1)%Z.
Proof.
  intros Hsize; unfold wrapper.
  destruct (od_get (cache_key arg_offset args) (cache st)); [now intros [= _ <-]|].
  destruct (Z.gtb_spec (Z.of_nat (length (cache st))) max_size) as [Hgt|Hle].
  - destruct (cache st) as [|e d]; simpl; [discriminate|].
    intros [= _ <-]; simpl in *.
    pose proof (od_set_length d (cache_key arg_offset args) (function args)); lia.
  - simpl; intros [= _ <-]; simpl.
    pose proof (od_set_length (cache st) (cache_key arg_offset args) (function args)); lia.
Qed.

(** X1.  The cache never grows past [max_size + 1] entries: a run of calls
    that starts within that size ends within it. *)
Theorem async_cache_size_bound (max_size : Z) (arg_offset : nat)
    (function : list string -> option V) (requests : list (list string)) st st' :
  (Z.of_nat (length (cache st)) <= max_size + 1)%Z ->
  run_calls max_size arg_offset function requests st = Ok st' ->
  (Z.of_nat (length (cache st')) <= max_size + 1)%Z.
Proof.
  revert st; induction requests as [|args rest IH]; simpl; intros st Hsize.
  - now intros [= <-].
  - destruct (wrapper max_size arg_offset function args st) as [[v st1]|e] eqn:Hw;
      simpl; [|discriminate].
    apply IH; eapply wrapper_size; eauto.
Qed.

Lemma last_n_app_drop_all {A : Type} (n : nat) (dropped l : list A) :
  n <= length l -> last_n n (dropped ++ l) = last_n n l.
Proof.
  intros Hn; unfold last_n; rewrite length_app.
  replace (length dropped + length l - n) with (length dropped + (length l - n)) by lia.
  apply drop_app_add.
Qed.

Lemma last_n_all {A : Type} (n : nat) (l : list A) : length l <= n -> last_n n l = l.
Proof. intros Hn; unfold last_n; now replace (length l - n) with 0 by lia. Qed.

(** A call with a key that is new to the cache. *)
Lemma wrapper_new_key (max_size : nat) (arg_offset : nat)
    (function : list string -> option V) (args : list string) st :
  cache_key arg_offset args ∉ map fst (cache st) ->
  length (cache st) <= S max_size ->
  wrapper (Z.of_nat max_size) arg_offset function args st
  = Ok (function args,
        {| cache := ((if (length (cache st) <=? max_size)%nat
                      then cache st else tail (cache st))
                     ++ [(cache_key arg_offset args, function args)])%list;
           calls := (calls st ++ [args])%list |}).
Proof.
  intros Hfresh Hsize; unfold wrapper.
  assert (Hget : od_get (cache_key arg_offset args) (cache st) = None)
    by (unfold od_get; now rewrite od_lookup_None).
  rewrite Hget.
  destruct (Z.gtb_spec (Z.of_nat (length (cache st))) (Z.of_nat max_size)) as [Hgt|Hle].
  - destruct (Nat.leb_spec (length (cache st)) max_size); [lia|].
    destruct (cache st) as [|e d] eqn:Hc; [simpl in *; lia|].
    cbn [od_popitem_first rbind tail].
    assert (Hfresh' : cache_key arg_offset args ∉ map fst d)
      by (intros Hin; apply Hfresh; now right).
    rewrite (od_set_new d _ _ Hfresh'); unfold od_get.
    rewrite <- (od_set_new d _ _ Hfresh'), od_lookup_set_eq; reflexivity.
  - destruct (Nat.leb_spec (length (cache st)) max_size); [|lia].
    cbn [rbind]; rewrite (od_set_new (cache st) _ _ Hfresh); unfold od_get.
    rewrite <- (od_set_new (cache st) _ _ Hfresh), od_lookup_set_eq; reflexivity.
Qed.

(** The order of eviction, from any cache: new keys whose results are not
    [None] go to the end, and the oldest entries go first. *)
Lemma run_calls_fifo (max_size : nat) (arg_offset : nat)
    (function : list string -> option V) (requests : list (list string)) st :
  length (cache st) <= S max_size ->
  NoDup (map fst (cache st) ++ map (cache_key arg_offset) requests) ->
  exists st',
    run_calls (Z.of_nat max_size) arg_offset function requests st = Ok st'
    /\ map fst (cache st')
       = last_n (S max_size) (map fst (cache st) ++ map (cache_key arg_offset) requests)
    /\ calls st' = (calls st ++ requests)%list.
Proof.
  revert st; induction requests as [|args rest IH]; intros st Hsize Hdup.
  - exists st; simpl; rewrite !app_nil_r.
    split; [reflexivity|]; split; [|reflexivity].
    rewrite last_n_all; [reflexivity | now rewrite length_map].
  - cbn [map] in Hdup.
    assert (Hfresh : cache_key arg_offset args ∉ map fst (cache st)).
    { apply NoDup_app in Hdup as (_ & Hdis & _); intros Hin.
      apply (Hdis _ Hin); left. }
    cbn [run_calls]; rewrite (wrapper_new_key _ _ _ _ _ Hfresh Hsize); cbn [rbind snd].
    match goal with |- context [run_calls _ _ _ rest ?s] => set (st1 := s) end.
    assert (Hkeys1 : exists dropped,
               (map fst (cache st) ++ [cache_key arg_offset args]
                = dropped ++ map fst (cache st1))%list
               /\ (dropped = [] \/ length (cache st1) = S max_size)
               /\ length (cache st1) <= S max_size).
    { subst st1; cbn [cache]; rewrite map_app; cbn [map fst].
      destruct (Nat.leb_spec (length (cache st)) max_size) as [Hle|Hgt].
      - exists []; rewrite length_app; simpl; split; [reflexivity|]; split; [now left | lia].
      - destruct (cache st) as [|[k0 v0] d]; [simpl in *; lia|].
        exists [k0]; cbn [tail map fst app]; rewrite length_app; simpl in *.
        split; [reflexivity|]; split; [right|]; lia. }
    destruct Hkeys1 as (dropped & Hsplit & Hdrop & Hsize1).
    assert (Hall : (map fst (cache st) ++ cache_key arg_offset args
                      :: map (cache_key arg_offset) rest
                    = dropped ++ (map fst (cache st1) ++ map (cache_key arg_offset) rest))%list).
    { rewrite app_assoc, <- Hsplit, <- app_assoc; reflexivity. }
    destruct (IH st1 Hsize1) as (st' & Hrun & Hkeys & Hcalls).
    { rewrite Hall in Hdup; now apply NoDup_app in Hdup as (_ & _ & Hdup). }
    exists st'; split; [exact Hrun|]; split.
    + rewrite Hkeys; cbn [map]; rewrite Hall.
      destruct Hdrop as [->|Hfull]; [reflexivity|].
      symmetry; apply last_n_app_drop_all.
      rewrite length_app, !length_map; lia.
    + rewrite Hcalls; subst st1; cbn [calls]; now rewrite <- app_assoc.
Qed.

(** X2.  Eviction is first in, first out.  From an empty cache, calls with
    distinct keys each call the wrapped function, and the cache then holds
    the last [max_size + 1] keys in the order of the calls. *)
Theorem async_cache_fifo (max_size : nat) (arg_offset : nat)
    (function : list string -> option V) (requests : list (list string)) :
  NoDup (map (cache_key arg_offset) requests) ->
  exists st,
    run_calls (Z.of_nat max_size) arg_offset function requests fresh_cache = Ok st
    /\ map fst (cache st) = last_n (S max_size) (map (cache_key arg_offset) requests)
    /\ calls st = requests.
Proof.
  intros Hdup.
  destruct (run_calls_fifo max_size arg_offset function requests fresh_cache)
    as (st & Hrun & Hkeys & Hcalls); simpl; auto; [lia|].
  exists st; auto.
Qed.

(** X3.  A call that returned a value is repeated for free: the next call
    with the same key, whatever its arguments, returns that value, does not
    call the wrapped function and leaves the cache as it is. *)
Theorem async_cache_repeat_is_served (max_size : Z) (arg_offset : nat)
    (function : list string -> option V) (args args' : list string) st st1 (v : V) :
  wrapper max_size arg_offset function args st = Ok (Some v, st1) ->
  cache_key arg_offset args' = cache_key arg_offset args ->
  wrapper max_size arg_offset function args' st1 = Ok (Some v, st1).
Proof.
  intros Hw Hkey; apply wrapper_hit; rewrite Hkey.
  revert Hw; unfold wrapper.
  destruct (od_get (cache_key arg_offset args) (cache st)) as [x|] eqn:Hget.
  - intros [= <- <-]; exact Hget.
  - destruct (if (_ >? _)%Z then _ else _) as [c|e]; simpl; [|discriminate].
    intros [= Hv <-]; exact Hv.
Qed.

(** X4.  With a negative [max_size] the empty cache cannot be filled: the
    first call asks [popitem] for an entry of the empty dictionary, and
    every run of calls ends in [KeyError]. *)
Theorem async_cache_negative_size (max_size : Z) (arg_offset : nat)
    (function : list string -> option V) (requests : list (list string)) :
  (max_size < 0)%Z ->
  requests <> [] ->
  run_calls max_size arg_offset function requests fresh_cache = Raise KeyError.
Proof.
  intros Hneg Hne; destruct requests as [|args rest]; [contradiction|].
  cbn [run_calls]; unfold wrapper; cbn [fresh_cache cache od_get od_lookup length].
  destruct (Z.gtb_spec (Z.of_nat 0) max_size); [reflexivity | simpl in *; lia].
Qed.

End CacheMore.

Lemma async_cache_size_bound_witness :
  exists st',
    run_calls 2 1 test_function (test_requests 7) fresh_cache = Ok st'
    /\ (Z.of_nat (length (cache st')) <= 2 + 1)%Z.
Proof.
  eexists; split; [vm_compute; reflexivity|].
  apply (async_cache_size_bound 2 1 test_function (test_requests 7) fresh_cache).
  - vm_compute; discriminate.
  - vm_compute; reflexivity.
Defined.

Lemma async_cache_fifo_witness :
  exists st,
    run_calls 2 1 test_function (test_requests 5) fresh_cache = Ok st
    /\ map fst (cache st) = ["k2"; "k3"; "k4"]
    /\ calls st = test_requests 5.
Proof.
  apply (async_cache_fifo 2 1 test_function (test_requests 5)).
  apply (bool_decide_unpack _); vm_compute; reflexivity.
Defined.

(** The key joins the arguments with a colon: the one argument ["a:b"] and
    the two arguments ["a"] and ["b"] share an entry. *)
Lemma async_cache_repeat_is_served_witness :
  exists st1,
    wrapper 128 0 test_function ["a:b"] fresh_cache = Ok (Some "a:b", st1)
    /\ wrapper 128 0 test_function ["a"; "b"] st1 = Ok (Some "a:b", st1).
Proof.
  eexists; split; [vm_compute; reflexivity|].
  apply (async_cache_repeat_is_served 128 0 test_function ["a:b"] ["a"; "b"] fresh_cache).
  - vm_compute; reflexivity.
  - reflexivity.
Defined.

Lemma async_cache_negative_size_witness :
  run_calls (-1) 1 test_function (test_requests 1) fresh_cache = Raise KeyError.
Proof.
  apply (async_cache_negative_size (-1) 1 test_function (test_requests 1)).
  - reflexivity.
  - discriminate.
Defined.

(** ** [_truncate_markdown]: what is cut *)

Lemma startswith_refl (s : string) : Py.startswith s s = true.
Proof. induction s as [|c s IH]; simpl; [reflexivity|]; now rewrite Ascii.eqb_refl. Qed.

Lemma startswith_nil (s : string) : Py.startswith s "" = true.
Proof. destruct s; reflexivity. Qed.

Lemma startswith_trans (a b c : string) :
  Py.startswith a b = true -> Py.startswith b c = true -> Py.startswith a c = true.
Proof.
  revert a b; induction c as [|x c IH]; intros a b Hab Hbc; [apply startswith_nil|].
  destruct b as [|y b]; [discriminate|].
  destruct a as [|z a]; [discriminate|].
  simpl in *.
  apply andb_true_iff in Hab as [Hyz Hab], Hbc as [Hxy Hbc].
  apply Ascii.eqb_eq in Hyz, Hxy; subst.
  rewrite Ascii.eqb_refl; simpl; eapply IH; eauto.
Qed.

Lemma startswith_take (n : nat) (s : string) : Py.startswith s (Py.take n s) = true.
Proof.
  revert s; induction n as [|n IH]; intros [|c s]; simpl; try reflexivity.
  now rewrite Ascii.eqb_refl, IH.
Qed.

Lemma startswith_slice_to (s : string) (i : Z) : Py.startswith s (Py.slice_to s i) = true.
Proof. unfold Py.slice_to; destruct (i <? 0)%Z; apply startswith_take. Qed.

Lemma startswith_rstrip_by (p : ascii -> bool) (s : string) :
  Py.startswith s (Py.rstrip_by p s) = true.
Proof.
  induction s as [|c s IH]; simpl; [reflexivity|].
  destruct (Py.rstrip_by p s) as [|d r]; simpl in *.
  - destruct (p c); simpl; [reflexivity|].
    rewrite Ascii.eqb_refl; simpl; apply startswith_nil.
  - now rewrite Ascii.eqb_refl.
Qed.

Lemma rstrip_by_idem (p : ascii -> bool) (s : string) :
  Py.rstrip_by p (Py.rstrip_by p s) = Py.rstrip_by p s.
Proof.
  induction s as [|c s IH]; simpl; [reflexivity|].
  destruct (Py.rstrip_by p s) as [|d r] eqn:E.
  - destruct (p c) eqn:Hc; simpl; [reflexivity | now rewrite Hc].
  - change (Py.rstrip_by p (String c (String d r)))
      with (match Py.rstrip_by p (String d r) with
            | EmptyString => if p c then EmptyString else String c EmptyString
            | r0 => String c r0
            end).
    now rewrite IH.
Qed.

(** X5.  A text longer than [max_length] is cut and never rewritten: the
    result is a beginning of the text, of at most [max_length] characters
    and with no punctuation at its end, followed by the ellipsis. *)
Theorem truncate_markdown_is_a_cut (markdown : string) (max_length : Z) :
  (0 <= max_length)%Z ->
  (Z.of_nat (String.length markdown) > max_length)%Z ->
  exists body,
    _truncate_markdown markdown max_length = body ++ "..."
    /\ Py.startswith markdown body = true
    /\ (Z.of_nat (String.length body) <= max_length)%Z
    /\ Py.rstrip_chars body Py.punctuation = body.
Proof.
  intros H0 Hl.
  pose proof (truncate_markdown_length markdown max_length H0 Hl) as Hlen.
  revert Hlen; unfold _truncate_markdown.
  destruct (Z.gtb_spec (Z.of_nat (String.length markdown)) max_length); [|lia].
  match goal with
  | |- context [Py.rstrip_chars ?x Py.punctuation ++ "..."] => set (cut := x)
  end.
  intros Hlen; exists (Py.rstrip_chars cut Py.punctuation).
  split; [reflexivity|]; split; [|split].
  - apply (startswith_trans _ cut); [|apply startswith_rstrip_by].
    subst cut.
    match goal with
    | |- context [if ?b then _ else _] => destruct b
    end.
    + eapply startswith_trans; [apply startswith_slice_to|].
      eapply startswith_trans; [apply startswith_slice_to | apply startswith_rstrip_by].
    + apply startswith_slice_to.
  - rewrite length_append in Hlen; simpl String.length in Hlen; lia.
  - apply rstrip_by_idem.
Qed.

Lemma truncate_markdown_is_a_cut_witness :
  exists body,
    _truncate_markdown "One sentence. Another sentence, which is long" 20 = body ++ "..."
    /\ Py.startswith "One sentence. Another sentence, which is long" body = true
    /\ (Z.of_nat (String.length body) <= 20)%Z
    /\ Py.rstrip_chars body Py.punctuation = body.
Proof.
  apply (truncate_markdown_is_a_cut "One sentence. Another sentence, which is long" 20).
  - discriminate.
  - reflexivity.
Defined.

(** ** [_WHITESPACE_AFTER_NEWLINES_RE]: what is removed *)

Lemma whitespace_sub_clean (s : string) (newlines : nat) :
  (forall k, whitespace_after_blank_line (whitespace_after_newlines_sub s newlines true) k
             = false)
  /\ whitespace_after_blank_line (whitespace_after_newlines_sub s newlines false) newlines
     = false.
Proof.
  revert newlines; induction s as [|c s IH]; intros n; [split; reflexivity|].
  cbn [whitespace_after_newlines_sub].
  set (n' := if Ascii.eqb c "010"%char then Nat.min 2 (S n) else 0).
  destruct (IH n') as [IHin IHout].
  destruct (Py.isspace c) eqn:Hc; cbn [andb orb].
  - split; [intros k; apply IHin|].
    destruct (2 <=? n)%nat eqn:Hn; [apply IHin|].
    cbn [whitespace_after_blank_line]; rewrite Hc, Hn; exact IHout.
  - assert (Hnl : Ascii.eqb c "010"%char = false).
    { destruct (Ascii.eqb_spec c "010"%char) as [->|]; [discriminate | reflexivity]. }
    subst n'; rewrite Hnl in *.
    split; [intros k|]; cbn [whitespace_after_blank_line]; rewrite Hc, Hnl; exact IHout.
Qed.

Lemma whitespace_sub_keeps (s : string) (newlines : nat) (inside : bool) :
  without_whitespace (whitespace_after_newlines_sub s newlines inside)
  = without_whitespace s.
Proof.
  revert newlines inside; induction s as [|c s IH]; intros n b; [reflexivity|].
  cbn [whitespace_after_newlines_sub without_whitespace].
  destruct (Py.isspace c) eqn:Hc; cbn [andb].
  - destruct (b || (2 <=? n)%nat); [apply IH|].
    cbn [without_whitespace]; rewrite Hc; apply IH.
  - cbn [without_whitespace]; rewrite Hc; f_equal; apply IH.
Qed.

Lemma whitespace_sub_fixed (s : string) (newlines : nat) :
  whitespace_after_blank_line s newlines = false ->
  whitespace_after_newlines_sub s newlines false = s.
Proof.
  revert newlines; induction s as [|c s IH]; intros n; [reflexivity|].
  cbn [whitespace_after_newlines_sub whitespace_after_blank_line].
  intros [Hc Hs]%orb_false_iff.
  rewrite orb_false_l, Hc; f_equal; now apply IH.
Qed.

(** X6.  After the substitution no whitespace is left right after two
    newlines, so a second pass changes nothing; and nothing but whitespace
    was removed. *)
Theorem whitespace_after_newlines_removed (s : string) :
  let cleaned := whitespace_after_newlines_sub s 0 false in
  whitespace_after_blank_line cleaned 0 = false
  /\ whitespace_after_newlines_sub cleaned 0 false = cleaned
  /\ without_whitespace cleaned = without_whitespace s.
Proof.
  intros cleaned.
  assert (Hclean : whitespace_after_blank_line cleaned 0 = false)
    by apply (whitespace_sub_clean s 0).
  split; [exact Hclean|]; split.
  - now apply whitespace_sub_fixed.
  - apply whitespace_sub_keeps.
Qed.

(** ** Extraction: the search, the signatures, the failures *)

Lemma unwanted_symbols_no_pilcrow (s : string) (skip : nat) :
  Py.mem_char pilcrow (unwanted_signature_symbols_sub s skip) = false.
Proof.
  revert skip; induction s as [|c s IH]; intros skip; [reflexivity|].
  cbn [unwanted_signature_symbols_sub].
  destruct skip as [|k]; [|apply IH].
  destruct (Py.startswith (String c s) "[source]"); [apply IH|].
  destruct (Py.startswith (String c s) "\\"); [apply IH|].
  destruct (Ascii.eqb c pilcrow) eqn:Hc; [apply IH|].
  cbn [Py.mem_char]; rewrite IH, orb_false_r.
  rewrite Ascii.eqb_sym; exact Hc.
Qed.

Lemma last_n_length {A : Type} (n : nat) (l : list A) : length (last_n n l) <= n.
Proof. unfold last_n; rewrite length_skipn; lia. Qed.

Lemma filter_length_le {A : Type} (f : A -> bool) (l : list A) :
  length (List.filter f l) <= length l.
Proof. induction l as [|x l IH]; simpl; [lia|]; destruct (f x); simpl; lia. Qed.

Lemma whitespace_sub_length (s : string) (newlines : nat) (inside : bool) :
  String.length (whitespace_after_newlines_sub s newlines inside) <= String.length s.
Proof.
  revert newlines inside; induction s as [|c s IH]; intros n b; [reflexivity|].
  cbn [whitespace_after_newlines_sub].
  destruct (Py.isspace c && (b || (2 <=? n)%nat)); cbn [String.length];
    match goal with |- context [whitespace_after_newlines_sub s ?m ?i] =>
      specialize (IH m i) end; lia.
Qed.

Lemma truncate_markdown_1000 (markdown : string) :
  String.length (_truncate_markdown markdown 1000) <= 1003.
Proof.
  destruct (Z.le_gt_cases (Z.of_nat (String.length markdown)) 1000) as [Hshort|Hlong].
  - rewrite truncate_markdown_short by exact Hshort; lia.
  - pose proof (truncate_markdown_length markdown 1000); lia.
Qed.

Lemma description_length `{Collaborators} (description url : string) :
  String.length (rendered_description description url) <= 1003.
Proof.
  unfold rendered_description.
  etransitivity; [apply whitespace_sub_length | apply truncate_markdown_1000].
Qed.

Section ExtractionMore.
Context `{BeautifulSoup} `{Collaborators}.

Lemma elements_until_split (tag_filter : tag_filter_t) (found : list PageElement) :
  exists rest,
    found = (elements_until tag_filter found ++ rest)%list
    /\ Forall (fun element => breaks_at tag_filter element = false)
         (elements_until tag_filter found)
    /\ (rest = [] \/ exists element rest', rest = element :: rest'
                                          /\ breaks_at tag_filter element = true).
Proof.
  induction found as [|element found (rest & Hsplit & Hall & Hrest)];
    [exists []; repeat split; [constructor | now left]|].
  cbn [elements_until]; fold (breaks_at tag_filter element).
  destruct (breaks_at tag_filter element) eqn:Hb.
  - exists (element :: found); split; [reflexivity|]; split; [constructor|].
    right; eauto.
  - exists rest; split; [cbn [app]; now rewrite <- Hsplit|]; split; [|exact Hrest].
    now constructor.
Qed.

(** X7.  [_find_elements_until_tag] returns the elements of the search up
    to the first tag that the filter matches, that tag left out: what it
    returns begins the search result, holds no matching tag, and is all of
    the result unless a matching tag comes next.  Started from [None] it
    raises [AttributeError]. *)
Theorem find_elements_until_tag_spec (func : find_many_method)
    (start_element : PageElement) (tag_filter : tag_filter_t)
    (include_strings : bool) (limit : option nat) :
  (exists elements rest,
     _find_elements_until_tag func (Some start_element) tag_filter include_strings limit
     = Ok elements
     /\ find_many func start_element include_strings limit = (elements ++ rest)%list
     /\ Forall (fun element => breaks_at tag_filter element = false) elements
     /\ (rest = [] \/ exists element rest', rest = element :: rest'
                                           /\ breaks_at tag_filter element = true))
  /\ _find_elements_until_tag func None tag_filter include_strings limit
     = Raise AttributeError.
Proof.
  split; [|reflexivity].
  destruct (elements_until_split tag_filter
              (find_many func start_element include_strings limit))
    as (rest & Hsplit & Hall & Hrest).
  eexists; exists rest; split; [reflexivity|]; auto.
Qed.

Lemma signatures_of_length (elements : list PageElement) :
  length (List.filter (fun signature => negb (String.eqb signature ""))
            (map (fun element => unwanted_signature_symbols_sub (element_text element) 0)
                 (last_n 3 elements))) <= 3.
Proof.
  etransitivity; [apply filter_length_le|].
  rewrite length_map; apply last_n_length.
Qed.

Lemma get_signatures_count (start_signature : PageElement) :
  exists signatures,
    _get_signatures start_signature = Ok signatures /\ length signatures <= 3.
Proof.
  unfold _get_signatures, _find_previous_siblings_until_tag, _find_next_siblings_until_tag,
    _find_elements_until_tag; cbn [rbind].
  eexists; split; [reflexivity | apply signatures_of_length].
Qed.

(** X8.  [_get_signatures] never raises and returns at most three
    signatures, none of them empty and none with a pilcrow. *)
Theorem get_signatures_at_most_three (start_signature : PageElement) :
  exists signatures,
    _get_signatures start_signature = Ok signatures
    /\ length signatures <= 3
    /\ Forall (fun signature => signature <> ""
                                /\ Py.mem_char pilcrow signature = false) signatures.
Proof.
  unfold _get_signatures, _find_previous_siblings_until_tag, _find_next_siblings_until_tag,
    _find_elements_until_tag; cbn [rbind].
  eexists; split; [reflexivity|]; split; [apply signatures_of_length|].
  apply Forall_forall; intros signature Hin.
  apply list_elem_of_In, filter_In in Hin as [Hin Hne].
  split.
  - intros ->; discriminate.
  - apply in_map_iff in Hin as (element & <- & _); apply unwanted_symbols_no_pilcrow.
Qed.

(** X9.  [get_symbol_markdown] fails in three cases and no other, each time
    with [AttributeError]: the page has no element for the anchor; the
    general description is taken and the header link found after the
    heading has no parent; the heading is a [dt], its group is not a
    general one, and no [dd] follows it. *)
Theorem get_symbol_markdown_failures (soup : PageElement) (symbol_data : DocItem)
    (e : exn) :
  get_symbol_markdown soup symbol_data = Raise e <->
  e = AttributeError
  /\ (find_id soup (symbol_id symbol_data) = None
      \/ exists heading,
           find_id soup (symbol_id symbol_data) = Some heading
           /\ ((general_description_is_used symbol_data heading = true
                /\ exists header,
                     find_next heading "a" (Some "headerlink") = Some header
                     /\ element_parent header = None)
               \/ (general_description_is_used symbol_data heading = false
                   /\ find_next heading "dd" None = None))).
Proof.
  unfold general_description_is_used.
  assert (Hgeneral : forall heading,
    (exists description, _get_general_description (Some heading) = Ok description
                         /\ forall header, find_next heading "a" (Some "headerlink")
                                           = Some header -> element_parent header <> None)
    \/ (_get_general_description (Some heading) = Raise AttributeError
        /\ exists header, find_next heading "a" (Some "headerlink") = Some header
                          /\ element_parent header = None)).
  { intros heading; unfold _get_general_description.
    destruct (find_next heading "a" (Some "headerlink")) as [header|].
    - destruct (element_parent header) as [parent|] eqn:Hp.
      + left; eexists; split; [reflexivity|]; intros ? [= <-]; now rewrite Hp.
      + right; split; [reflexivity|]; eauto.
    - left; eexists; split; [reflexivity|]; discriminate. }
  assert (Hdd : forall heading,
    (exists description, _get_dd_description heading = Ok description
                         /\ find_next heading "dd" None <> None)
    \/ (_get_dd_description heading = Raise AttributeError
        /\ find_next heading "dd" None = None)).
  { intros heading; unfold _get_dd_description.
    destruct (find_next heading "dd" None) as [dd|].
    - left; eexists; split; [reflexivity|]; discriminate.
    - right; split; reflexivity. }
  unfold get_symbol_markdown.
  destruct (find_id soup (symbol_id symbol_data)) as [heading|] eqn:Hfind.
  2: { destruct (bool_decide _); cbn [rbind _get_general_description];
       (split; [intros [= <-]; split; [reflexivity | now left]
               | intros [-> _]; reflexivity]). }
  destruct (bool_decide (group symbol_data ∈ ["module"; "doc"; "label"])) eqn:Hg;
    cbn [orb].
  - destruct (Hgeneral heading) as [(d & -> & Hok)|(-> & header & Hh & Hp)]; cbn [rbind].
    + split; [discriminate|].
      intros [_ [Hnone|(h & [= <-] & [[_ (header & Hh & Hp)]|[Hf _]])]];
        [discriminate | now apply Hok in Hh | discriminate].
    + split; [intros [= <-]; split; [reflexivity|]; right; exists heading; eauto 10
             | intros [-> _]; reflexivity].
  - destruct (negb (String.eqb (tag_name heading) "dt")) eqn:Hdt.
    + destruct (Hgeneral heading) as [(d & -> & Hok)|(-> & header & Hh & Hp)]; cbn [rbind].
      * split; [discriminate|].
        intros [_ [Hnone|(h & [= <-] & [[_ (header & Hh & Hp)]|[Hf _]])]];
          [discriminate | now apply Hok in Hh | rewrite Hdt in Hf; discriminate].
      * split; [intros [= <-]; split; [reflexivity|]; right; exists heading;
                rewrite Hdt; eauto 10
               | intros [-> _]; reflexivity].
    + destruct (Hdd heading) as [(d & Hd & Hok)|(Hd & Hnone)].
      * destruct (bool_decide (group symbol_data ∈ _NO_SIGNATURE_GROUPS));
          rewrite Hd; cbn [rbind].
        -- split; [discriminate|].
           intros [_ [Hn|(h & [= <-] & [[Hf _]|[_ Hf]])]];
             [discriminate | rewrite Hdt in Hf; discriminate | contradiction].
        -- destruct (get_signatures_count heading) as (sigs & -> & _); cbn [rbind].
           split; [discriminate|].
           intros [_ [Hn|(h & [= <-] & [[Hf _]|[_ Hf]])]];
             [discriminate | rewrite Hdt in Hf; discriminate | contradiction].
      * destruct (bool_decide (group symbol_data ∈ _NO_SIGNATURE_GROUPS));
          rewrite Hd; cbn [rbind];
          (split; [intros [= <-]; split; [reflexivity|]; right; exists heading;
                   rewrite Hdt; eauto 10
                  | intros [-> _]; reflexivity]).
Qed.

Lemma get_symbol_markdown_parts (soup : PageElement) (symbol_data : DocItem)
    (markdown : string) :
  get_symbol_markdown soup symbol_data = Ok markdown ->
  exists signatures description,
    markdown = _parse_into_markdown signatures description (url symbol_data)
    /\ length (default [] signatures) <= 3.
Proof.
  unfold get_symbol_markdown.
  set (found := if bool_decide _ then _ else _).
  destruct found as [[signature description]|e] eqn:Hfound; cbn [rbind]; [|discriminate].
  intros [= <-]; exists signature, (remove_char pilcrow description).
  split; [reflexivity|].
  subst found; revert Hfound.
  destruct (bool_decide _).
  - destruct (_get_general_description _); cbn [rbind]; [|discriminate].
    intros [= <- _]; simpl; lia.
  - destruct (find_id soup (symbol_id symbol_data)) as [heading|]; [|discriminate].
    destruct (negb _).
    + destruct (_get_general_description _); cbn [rbind]; [|discriminate].
      intros [= <- _]; simpl; lia.
    + destruct (bool_decide _).
      * destruct (_get_dd_description _); cbn [rbind]; [|discriminate].
        intros [= <- _]; simpl; lia.
      * destruct (_get_dd_description _); cbn [rbind]; [|discriminate].
        destruct (get_signatures_count heading) as (sigs & -> & Hcount); cbn [rbind].
        intros [= <- _]; exact Hcount.
Qed.

Lemma join_blocks_length (signatures : list string) :
  (forall text width, String.length (shorten text width) <= width) ->
  String.length (Py.join "" (map code_block signatures)) <= 509 * length signatures.
Proof.
  intros Hshorten; induction signatures as [|signature rest IH]; [simpl; lia|].
  assert (Hblock : String.length (code_block signature) <= 509).
  { unfold code_block; rewrite !length_append.
    pose proof (Hshorten signature 500).
    change (String.length "```py") with 5; change (String.length Py.nl) with 1.
    change (String.length "```") with 3; lia. }
  cbn [map length]; destruct rest as [|next rest'].
  - cbn [map Py.join]; lia.
  - change (Py.join "" (code_block signature :: map code_block (next :: rest')))
      with (code_block signature ++ "" ++ Py.join "" (map code_block (next :: rest'))).
    rewrite !length_append; change (String.length "") with 0.
    change (length (signature :: next :: rest')) with (S (length (next :: rest'))); lia.
Qed.

(** X10.  The markdown of a symbol has at most 2531 characters when
    [textwrap.shorten] keeps its width: up to three code blocks of at most
    509 characters, a newline, and a description of at most 1003. *)
Theorem get_symbol_markdown_length (soup : PageElement) (symbol_data : DocItem)
    (markdown : string) :
  (forall text width, String.length (shorten text width) <= width) ->
  get_symbol_markdown soup symbol_data = Ok markdown ->
  String.length markdown <= 2531.
Proof.
  intros Hshorten Hok.
  destruct (get_symbol_markdown_parts _ _ _ Hok) as (signatures & description & -> & Hcount).
  rewrite parse_into_markdown_unfold, !length_append.
  pose proof (join_blocks_length (default [] signatures) Hshorten) as Hblocks.
  pose proof (description_length description (url symbol_data)) as Hdescription.
  change (String.length Py.nl) with 1; lia.
Qed.

End ExtractionMore.

(** The page of [A] and [B], with [shorten] a plain cut. *)
Lemma get_symbol_markdown_length_witness :
  exists markdown,
    get_symbol_markdown (parse_html example_page) (example_item "a") = Ok markdown
    /\ String.length markdown <= 2531.
Proof.
  eexists; split; [vm_compute; reflexivity|].
  apply (@get_symbol_markdown_length tree_soup plain_collaborators
           (parse_html example_page) (example_item "a")).
  - intros text width; apply take_length_le.
  - vm_compute; reflexivity.
Defined.

(** ** The data model of the cog *)

Lemma string_app_assoc (a b c : string) : (a ++ b) ++ c = a ++ (b ++ c).
Proof.
  induction a as [|x a IH]; [reflexivity|].
  change (String x ((a ++ b) ++ c) = String x (a ++ (b ++ c))); now rewrite IH.
Qed.

Lemma string_app_nil_r (a : string) : a ++ "" = a.
Proof.
  induction a as [|x a IH]; [reflexivity|].
  change (String x (a ++ "") = String x a); now rewrite IH.
Qed.

Lemma string_app_cons (c : ascii) (a b : string) : String c a ++ b = String c (a ++ b).
Proof. reflexivity. Qed.

Lemma partition_join (s : string) (sep : ascii) :
  fst (Py.partition s sep) ++ String sep "" ++ snd (Py.partition s sep)
  = s ++ (if Py.contains (String sep "") s then "" else String sep "").
Proof.
  induction s as [|c s IH]; [reflexivity|].
  cbn [Py.partition Py.contains Py.startswith].
  rewrite (Ascii.eqb_sym sep c).
  destruct (Ascii.eqb c sep) eqn:Hc.
  - apply Ascii.eqb_eq in Hc as ->.
    assert (Hs : Py.startswith s "" = true) by (destruct s; reflexivity).
    rewrite Hs; cbn [andb orb fst snd].
    rewrite string_app_nil_r; reflexivity.
  - cbn [andb orb].
    destruct (Py.partition s sep) as [a b]; cbn [fst snd] in *.
    rewrite !string_app_cons; f_equal; exact IH.
Qed.

(** X11.  The URL of an entry is the URL of the inventory: the base URL
    followed by the relative URL, with a [#] added at the end when the
    relative URL has none. *)
Theorem url_of_new_item (symbol api_package_name group_name base_url_ relative_doc_url : string) :
  url (new_item symbol api_package_name group_name base_url_ relative_doc_url)
  = base_url_ ++ relative_doc_url
    ++ (if Py.contains "#" relative_doc_url then "" else "#").
Proof.
  unfold url, new_item; cbn [base_url relative_url_path symbol_id Py.join].
  rewrite <- (partition_join relative_doc_url "#"%char); reflexivity.
Qed.

(** X12.  [put_to_front] raises [ValueError] exactly when the item is not
    in the queue.  Otherwise the queue keeps its entries, the other entries
    keep their order, and the item is the one that [pop] takes next. *)
Theorem put_to_front_spec (item : DocItem) (q : TODO_PLACEHOLDER) :
  match put_to_front item q with
  | Ok q' =>
      item ∈ queue q
      /\ queue q ≡ₚ queue q'
      /\ (exists rest, queue q' = (rest ++ [item])%list
                       /\ list_pop (queue q') = Some (item, rest)
                       /\ list_remove item (queue q) = Ok rest)
      /\ started q' = started q
      /\ item_events q' = item_events q
  | Raise e => e = ValueError /\ item ∉ queue q
  end.
Proof.
  unfold put_to_front.
  assert (Hremove : match list_remove item (queue q) with
                    | Ok rest => item ∈ queue q /\ queue q ≡ₚ item :: rest
                    | Raise e => e = ValueError /\ item ∉ queue q
                    end).
  { induction (queue q) as [|y l IH]; cbn [list_remove].
    - split; [reflexivity | apply not_elem_of_nil].
    - destruct (decide (y = item)) as [->|Hne]; [split; [left | reflexivity]|].
      destruct (list_remove item l) as [rest|e]; cbn [rbind].
      + destruct IH as [Hin Hperm]; split; [now right|].
        rewrite Hperm; apply Permutation_swap.
      + destruct IH as [-> Hnot]; split; [reflexivity|].
        intros [Heq|Hin]%elem_of_cons; [now apply Hne | contradiction]. }
  destruct (list_remove item (queue q)) as [rest|e]; cbn [rbind queue started item_events];
    [|exact Hremove].
  destruct Hremove as [Hin Hperm].
  split; [exact Hin|]; split; [|split; [|split; reflexivity]].
  - rewrite Hperm; apply Permutation_cons_append.
  - exists rest; split; [reflexivity|]; split; [apply list_pop_snoc | reflexivity].
Qed.

(** ** [_fetch_inventory]: attempts and results *)

(** X13.  [_fetch_inventory] calls the fetch at least once and at most
    three times, and only after a timeout or a lost connection does it call
    again.  Its last call decides: an inventory is returned, an HTTP error
    or a refused connection gives [None], any other exception leaves the
    function, and a third timeout or lost connection gives [None]. *)
Theorem fetch_inventory_attempts (fetch : nat -> fetch_outcome) :
  let '(fetched, calls_made) := _fetch_inventory fetch in
  1 <= calls_made <= FAILED_REQUEST_RETRY_AMOUNT
  /\ (forall n, 1 <= n < calls_made -> transient (fetch n) = true)
  /\ match fetch calls_made with
     | Fetched package_ => fetched = Ok (Some package_)
     | HTTPError _ | ConnectionError => fetched = Ok None
     | OtherException e => fetched = Raise e
     | ConnectTimeout | ProtocolError =>
         calls_made = FAILED_REQUEST_RETRY_AMOUNT /\ fetched = Ok None
     end.
Proof.
  unfold _fetch_inventory, FAILED_REQUEST_RETRY_AMOUNT; cbn [fetch_attempts].
  assert (Hlt : forall (P : nat -> Prop) m, (forall n, 1 <= n < m -> n = 1 \/ n = 2) ->
                  (1 < m -> P 1) -> (2 < m -> P 2) -> forall n, 1 <= n < m -> P n).
  { intros P m Hm H1 H2 n Hn; destruct (Hm n Hn) as [->| ->]; [apply H1 | apply H2]; lia. }
  destruct (fetch 1) eqn:E1;
    try (cbn; rewrite E1; repeat split; try lia; intros n Hn; lia).
  all: destruct (fetch 2) eqn:E2;
    try (cbn; rewrite E2; repeat split; try lia;
         intros n Hn; assert (n = 1) as -> by lia; now rewrite E1).
  all: destruct (fetch 3) eqn:E3; cbn; rewrite E3; repeat split; try lia;
    intros n Hn; assert (n = 1 \/ n = 2) as [-> | ->] by lia;
    rewrite ?E1, ?E2; reflexivity.
Qed.

(** ** Ingestion keeps the table in order *)

Lemma update_symbol_shape
    (api_package_name base_url_ group_ symbol relative_doc_url : string) (c c' : DocCog) :
  update_symbol api_package_name base_url_ group_ symbol relative_doc_url c = Ok c' ->
  c' = c
  \/ exists item mid,
       c' = store_item item mid
       /\ package item = api_package_name
       /\ base_urls mid = base_urls c
       /\ ((doc_symbols mid = doc_symbols c
            /\ (renamed_symbols mid = renamed_symbols c
                \/ renamed_symbols mid = {[name item]} ∪ renamed_symbols c))
           \/ exists overridden existing,
                doc_symbols c !! symbol = Some existing
                /\ doc_symbols mid = <[overridden := existing]> (doc_symbols c)
                /\ renamed_symbols mid = {[overridden]} ∪ renamed_symbols c).
Proof.
  unfold update_symbol.
  destruct (Py.contains "/" symbol); [intros [= <-]; now left|].
  destruct (Py.index (Py.split group_ ":" None) 1) as [group_name|]; cbn [rbind];
    [|discriminate].
  intros Hrun; right; revert Hrun.
  assert (Hstore : forall sym mid,
    (let '(symbol0, cog0) := (sym, mid) in
     let '(relative_url_path_, symbol_id_) := Py.partition relative_doc_url "#" in
     let item :=
       {| name := symbol0; package := api_package_name; group := group_name;
          base_url := base_url_; relative_url_path := relative_url_path_;
          symbol_id := symbol_id_ |} in
     let cog1 := set_symbol symbol0 item cog0 in
     let key := base_url_ ++ relative_url_path_ in
     Ok (set_urls key (add_item item (urls_get key cog1)) cog1)) = Ok c' ->
    exists item, c' = store_item item mid /\ package item = api_package_name
                 /\ name item = sym).
  { intros sym mid; cbn beta iota.
    destruct (Py.partition relative_doc_url "#") as [p i]; intros [= <-].
    exists {| name := sym; package := api_package_name; group := group_name;
              base_url := base_url_; relative_url_path := p; symbol_id := i |}.
    repeat split. }
  destruct (doc_symbols c !! symbol) as [existing|] eqn:Hex; cbn [rbind].
  - destruct (Py.index (Py.split (url existing) "/" (Some 3)) 2); cbn [rbind];
      [|discriminate].
    destruct (_ || _); cbn [rbind];
      [intros (item & -> & Hp & Hn)%Hstore; exists item; eexists;
       split; [reflexivity|]; split; [exact Hp|]; split; [reflexivity|];
       left; split; [reflexivity|]; right; now rewrite Hn|].
    destruct (bool_decide (group existing ∈ NO_OVERRIDE_GROUPS)); cbn [rbind];
      [intros (item & -> & Hp & Hn)%Hstore; exists item; eexists;
       split; [reflexivity|]; split; [exact Hp|]; split; [reflexivity|];
       right; eexists; exists existing; repeat split|].
    destruct (bool_decide (symbol ∈ renamed_symbols c)); cbn [rbind];
      intros (item & -> & Hp & Hn)%Hstore; exists item; eexists;
      (split; [reflexivity|]; split; [exact Hp|]; split; [reflexivity|]);
      left; split; [reflexivity | right; now rewrite Hn | reflexivity | now left].
  - intros (item & -> & Hp & Hn)%Hstore; exists item, c.
    split; [reflexivity|]; split; [exact Hp|]; split; [reflexivity|].
    left; split; [reflexivity | now left].
Qed.

Lemma update_symbol_in_order
    (api_package_name base_url_ group_ symbol relative_doc_url : string) (c c' : DocCog) :
  is_Some (base_urls c !! api_package_name) ->
  table_in_order c ->
  update_symbol api_package_name base_url_ group_ symbol relative_doc_url c = Ok c' ->
  table_in_order c' /\ base_urls c' = base_urls c.
Proof.
  intros Hlisted (Hren & Hname & Hpkg) Hrun.
  destruct (update_symbol_shape _ _ _ _ _ _ _ Hrun)
    as [->|(item & mid & -> & Hp & Hb & Hcase)]; [repeat split; auto|].
  split; [|exact Hb].
  unfold table_in_order; rewrite store_item_symbols, store_item_renamed.
  change (base_urls (store_item item mid)) with (base_urls mid); rewrite Hb.
  destruct Hcase as [[Hd Hr]|(ov & existing & Hex & Hd & Hr)]; rewrite Hd.
  - split; [|split].
    + intros r Hin; apply lookup_insert_is_Some'.
      destruct Hr as [Hr|Hr]; rewrite Hr in Hin.
      * right; now apply Hren.
      * apply elem_of_union in Hin as [->%elem_of_singleton|Hin];
          [now left | right; now apply Hren].
    + intros key it [[<- <-]|[Hne Hlook]]%lookup_insert_Some; [now left|].
      destruct (Hname _ _ Hlook) as [Hn|Hin]; [now left|right].
      destruct Hr as [-> | ->]; [exact Hin | apply elem_of_union; now right].
    + intros key it [[<- <-]|[Hne Hlook]]%lookup_insert_Some;
        [now rewrite Hp | eapply Hpkg; eauto].
  - split; [|split].
    + intros r Hin; rewrite Hr in Hin.
      apply lookup_insert_is_Some'; right; apply lookup_insert_is_Some'.
      apply elem_of_union in Hin as [->%elem_of_singleton|Hin];
        [now left | right; now apply Hren].
    + rewrite Hr.
      intros key it [[<- <-]|[Hne [[<- <-]|[Hne' Hlook]]%lookup_insert_Some]]%lookup_insert_Some.
      * now left.
      * right; apply elem_of_union; left; now apply elem_of_singleton.
      * destruct (Hname _ _ Hlook) as [Hn|Hin]; [now left|right].
        apply elem_of_union; now right.
    + intros key it [[<- <-]|[Hne [[<- <-]|[Hne' Hlook]]%lookup_insert_Some]]%lookup_insert_Some.
      * now rewrite Hp.
      * eapply Hpkg; eauto.
      * eapply Hpkg; eauto.
Qed.

Lemma update_single_in_order (api_package_name base_url_ : string)
    (fetched : option inventory) (c : DocCog) :
  table_in_order c ->
  table_in_order (final_cog (update_single api_package_name base_url_ fetched c)).
Proof.
  intros (Hren & Hname & Hpkg); unfold update_single.
  assert (Hbase : table_in_order (set_base_url api_package_name base_url_ c)
                  /\ is_Some (base_urls (set_base_url api_package_name base_url_ c)
                              !! api_package_name)).
  { split; [|cbn [base_urls set_base_url]; rewrite lookup_insert_eq; eauto].
    split; [exact Hren|]; split; [exact Hname|].
    intros key item Hlook; cbn [base_urls set_base_url].
    apply lookup_insert_is_Some'; right; eapply Hpkg; exact Hlook. }
  destruct Hbase as [Hwf Hlisted].
  destruct fetched as [[|g rest]|]; [exact Hwf | | exact Hwf].
  revert Hwf Hlisted; generalize (set_base_url api_package_name base_url_ c) as c0.
  generalize (entries (g :: rest)) as items.
  induction items as [|[[group_ symbol] relative_doc_url] items IH]; intros c0 Hwf Hlisted;
    cbn [for_each final_cog]; [exact Hwf|].
  destruct (update_symbol api_package_name base_url_ group_ symbol relative_doc_url c0)
    as [c1|e] eqn:Hrun; [|exact Hwf].
  destruct (update_symbol_in_order _ _ _ _ _ _ _ Hlisted Hwf Hrun) as [Hwf1 Hb].
  apply IH; [exact Hwf1 | now rewrite Hb].
Qed.

Section TableFacts.
Context `{BeautifulSoup} `{Collaborators}.

Lemma return_embed_index (symbol : string) (symbol_data : DocItem) (c c' : DocCog)
    (embed : Embed) :
  return_embed symbol symbol_data c = Ok (embed, c') -> index_of c' = index_of c.
Proof.
  unfold return_embed; destruct (objects c !! name symbol_data); [|discriminate].
  now intros [= _ <-].
Qed.

Lemma enter_wait_index (symbol : string) (symbol_data : DocItem)
    (soup : option PageElement) (w w' : World) (task : caller) :
  enter_wait symbol symbol_data soup w = (task, w') -> index_of (cog w') = index_of (cog w).
Proof.
  unfold enter_wait, wait_for_item.
  destruct (put_to_front _ _); cbn [rbind]; now intros [= _ <-].
Qed.

(** Only a refresh and ingestion touch the table. *)
Lemma step_index (ev : event) (w w' : World) :
  step ev w = Some w' ->
  match ev with
  | Refresh | Update _ _ _ => True
  | _ => index_of (cog w') = index_of (cog w)
  end.
Proof.
  destruct ev as [|api base fetched|symbol|task soup|task|task]; cbn [step]; auto.
  - destruct (start_request symbol w) as [task w1] eqn:Hstart; intros [= <-].
    cbn [cog with_callers]; revert Hstart; unfold start_request.
    destruct (doc_symbols (cog w) !! symbol) as [symbol_data|]; [|now intros [= _ <-]].
    destruct (bool_decide _).
    + destruct (return_embed symbol symbol_data (cog w)) as [[embed c]|e] eqn:Hret;
        intros [= _ <-]; [|reflexivity].
      cbn [cog with_cog]; eapply return_embed_index; eauto.
    + destruct (negb _); [now intros [= _ <-]|].
      intros Hwait; apply enter_wait_index in Hwait; rewrite Hwait; reflexivity.
  - destruct (callers w !! task) as [[symbol symbol_data| | |]|]; try discriminate.
    destruct (enter_wait symbol symbol_data (Some soup) w) as [task' w1] eqn:Hwait.
    intros [= <-]; cbn [cog with_callers]; eapply enter_wait_index; eauto.
  - destruct (parsers w !! task) as [[key soup item| |]|]; try discriminate.
    destruct (parse_items_step key soup item w) as [p w1] eqn:Hparse.
    intros [= <-]; cbn [cog with_parsers]; revert Hparse; unfold parse_items_step.
    destruct (list_pop _) as [[x rest]|]; [|now intros [= _ <-]].
    destruct (match soup with Some _ => _ | None => _ end); now intros [= _ <-].
  - destruct (callers w !! task) as [[| symbol symbol_data item_event | |]|];
      try discriminate.
    destruct (bool_decide _); [|discriminate].
    destruct (return_embed symbol symbol_data (cog w)) as [[embed c]|e] eqn:Hret;
      intros [= <-]; [|reflexivity].
    cbn [cog with_callers with_cog]; eapply return_embed_index; eauto.
Qed.

Lemma table_in_order_index (c c' : DocCog) :
  index_of c' = index_of c -> table_in_order c -> table_in_order c'.
Proof. unfold index_of, table_in_order; intros [= -> -> ->]; auto. Qed.

Lemma step_in_order (ev : event) (w w' : World) :
  step ev w = Some w' -> table_in_order (cog w) -> table_in_order (cog w').
Proof.
  intros Hstep Hwf; pose proof (step_index ev w w' Hstep) as Hindex.
  destruct ev; try (eapply table_in_order_index; eauto; fail).
  - cbn [step] in Hstep; injection Hstep as <-; cbn [cog refresh_inventory_clear].
    repeat split; cbn; intros *; try rewrite lookup_empty; try discriminate.
    all: try (intros Hin; now apply not_elem_of_empty in Hin).
  - cbn [step] in Hstep; injection Hstep as <-; cbn [cog with_cog].
    now apply update_single_in_order.
Qed.

(** X14.  In every state the cog reaches the table is in order: each
    renamed name is a key of the table, each entry is stored under its own
    name or under a renamed name, and the package of each entry is among
    the listed packages. *)
Theorem table_stays_in_order (evs : list event) (w : World) :
  exec evs new_world = Some w -> table_in_order (cog w).
Proof.
  assert (Hgen : forall w0, table_in_order (cog w0) -> exec evs w0 = Some w ->
                            table_in_order (cog w)).
  { induction evs as [|ev rest IH]; intros w0 Hwf; cbn [exec]; [now intros [= <-]|].
    destruct (step ev w0) as [w1|] eqn:Hstep; [|discriminate].
    apply IH; eapply step_in_order; eauto. }
  apply Hgen; repeat split; cbn; intros *; try rewrite lookup_empty; try discriminate.
  all: try (intros Hin; now apply not_elem_of_empty in Hin).
Qed.

End TableFacts.

Lemma table_stays_in_order_witness :
  table_in_order
    (cog (world_after
            [Refresh;
             Update "one" "https://docs.one.example/"
               (Some [("std:label", [("foo", ("One", "1.0", "guide.html#foo", "-"))])]);
             Update "two" "https://docs.two.example/"
               (Some [("py:class", [("foo", ("Two", "2.0", "api.html#foo", "-"))])]);
             Request "label.foo"])).
Proof.
  apply (@table_stays_in_order tree_soup plain_collaborators
           [Refresh;
            Update "one" "https://docs.one.example/"
              (Some [("std:label", [("foo", ("One", "1.0", "guide.html#foo", "-"))])]);
            Update "two" "https://docs.two.example/"
              (Some [("py:class", [("foo", ("Two", "2.0", "api.html#foo", "-"))])]);
            Request "label.foo"]).
  vm_compute; reflexivity.
Defined.
